(** * bitnami.py: the Bitnami workaround transform of helmfile2compose

    A shallow embedding of [src/bitnami.py] and the properties of its
    repair routines.

    Conventions of the embedding
    - a Python [str] is a [string]; the string operations the source uses
      ([in], [str.replace], [str.strip], f-string concatenation) are
      defined in [Module Py];
    - the Service Set is a Python [dict] whose iteration order is its
      insertion order, hence an association list with Python's [dict]
      operations ([Module Dict]);
    - the Secret Store, the plaintext and base64 sub-mappings and the
      [environment] mapping are only ever looked up or written by key:
      they are [gmap string _];
    - a service record has the five keys the transform reads or writes,
      an absent key being [None], and carries its other keys along;
    - a repair routine returns the record as it leaves it and the lines
      it logs; the entry routine, which looks up, rewrites and deletes
      entries of the Service Set and can raise [KeyError], lives in a
      state-and-error monad over the Service Set and the diagnostics
      stream. *)

From Stdlib Require Import Ascii.
From stdpp Require Import gmap strings list.

(** ** Python string operations *)

Module Py.

(** [s.startswith(p)] *)
Fixpoint startswith (s p : string) {struct p} : bool :=
  match p with
  | "" => true
  | String a p' =>
      match s with
      | "" => false
      | String b s' => if Ascii.eqb a b then startswith s' p' else false
      end
  end.

(** [p in s] on strings: [p] occurs in [s] as a contiguous substring. *)
Fixpoint contains (p s : string) : bool :=
  startswith s p ||
  match s with
  | "" => false
  | String _ s' => contains p s'
  end.

(** [str.replace] scans left to right and replaces the non-overlapping
    occurrences of [old]; [skip] counts the characters of a matched
    occurrence that are still to be consumed. *)
Fixpoint replace_from (skip : nat) (s old new : string) : string :=
  match s with
  | "" => ""
  | String c s' =>
      match skip with
      | S k => replace_from k s' old new
      | O =>
          if startswith s old
          then new +:+ replace_from (String.length old - 1) s' old new
          else String c (replace_from 0 s' old new)
      end
  end.

(** With an empty [old], Python inserts [new] before every character
    and at the end. *)
Fixpoint intersperse (s new : string) : string :=
  match s with
  | "" => new
  | String c s' => new +:+ String c (intersperse s' new)
  end.

(** [s.replace(old, new)] *)
Definition replace (s old new : string) : string :=
  match old with
  | "" => intersperse s new
  | _ => replace_from 0 s old new
  end.

Definition char_in (c : Ascii.ascii) (chars : string) : bool :=
  contains (String c "") chars.

(** [s.lstrip(chars)] *)
Fixpoint lstrip (s chars : string) : string :=
  match s with
  | "" => ""
  | String c s' => if char_in c chars then lstrip s' chars else s
  end.

(** [s.rstrip(chars)] *)
Fixpoint rstrip (s chars : string) : string :=
  match s with
  | "" => ""
  | String c s' =>
      match rstrip s' chars with
      | "" => if char_in c chars then "" else String c ""
      | r => String c r
      end
  end.

(** [s.strip(chars)] *)
Definition strip (s chars : string) : string :=
  rstrip (lstrip s chars) chars.

(** Truthiness of a string: [if s:] holds for the non-empty ones. *)
Definition truthy (s : string) : bool :=
  match s with "" => false | _ => true end.

End Py.

(** ** Python dictionaries that are iterated: insertion-ordered *)

Module Dict.
Section Ops.
Context {V : Type}.

(** [d.get(k)] / [d[k]]: [None] is the absent key. *)
Fixpoint get (d : list (string * V)) (k : string) : option V :=
  match d with
  | [] => None
  | (k', v) :: d' => if String.eqb k' k then Some v else get d' k
  end.

(** [list(d)]: the keys in insertion order. *)
Definition keys (d : list (string * V)) : list string := d.*1.

(** [d[k] = v]: an existing key keeps its position, a new one goes
    last. *)
Fixpoint set (d : list (string * V)) (k : string) (v : V)
  : list (string * V) :=
  match d with
  | [] => [(k, v)]
  | (k', v') :: d' =>
      if String.eqb k' k then (k', v) :: d' else (k', v') :: set d' k v
  end.

(** The entries left by [del d[k]]. *)
Fixpoint remove (d : list (string * V)) (k : string)
  : list (string * V) :=
  match d with
  | [] => []
  | (k', v) :: d' =>
      if String.eqb k' k then d' else (k', v) :: remove d' k
  end.

(** [del d[k]]: [None] stands for the [KeyError] of an absent key. *)
Definition del (d : list (string * V)) (k : string)
  : option (list (string * V)) :=
  match get d k with
  | Some _ => Some (remove d k)
  | None => None
  end.
End Ops.
End Dict.

(** ** Data model *)

(** A Service Definition: the keys of the compose service that the
    transform names; [None] is an absent key. [others] carries every
    other key of the record (ports, depends_on, ...). *)
Record service := Service {
  image : option string;
  entrypoint : option (list string);
  command : option (list string);
  volumes : option (list string);
  environment : option (gmap string string);
  others : gmap string string
}.

(** [svc["image"] = v] *)
Definition set_image (v : string) (svc : service) : service :=
  Service (Some v) (entrypoint svc) (command svc) (volumes svc)
          (environment svc) (others svc).

(** [svc.pop("entrypoint", None)] *)
Definition pop_entrypoint (svc : service) : service :=
  Service (image svc) None (command svc) (volumes svc)
          (environment svc) (others svc).

(** [svc["command"] = v] *)
Definition set_command (v : list string) (svc : service) : service :=
  Service (image svc) (entrypoint svc) (Some v) (volumes svc)
          (environment svc) (others svc).

(** [svc["volumes"] = v] *)
Definition set_volumes (v : list string) (svc : service) : service :=
  Service (image svc) (entrypoint svc) (command svc) (Some v)
          (environment svc) (others svc).

(** [svc.pop("environment", None)] *)
Definition pop_environment (svc : service) : service :=
  Service (image svc) (entrypoint svc) (command svc) (volumes svc)
          None (others svc).

(** [svc.setdefault("environment", {})[k] = v] *)
Definition setdefault_environment (k v : string) (svc : service) : service :=
  Service (image svc) (entrypoint svc) (command svc) (volumes svc)
          (Some (<[k := v]> (default ∅ (environment svc)))) (others svc).

(** [svc.get("environment", {}).get(k)] *)
Definition env_lookup (svc : service) (k : string) : option string :=
  default ∅ (environment svc) !! k.

(** A Kubernetes Secret manifest: the two sub-mappings the transform
    reads; [has_other_keys] tells whether the manifest has any further
    key (kind, metadata, ...), which only matters for [if secret:]. *)
Record secret := Secret {
  stringData : option (gmap string string);
  data : option (gmap string string);
  has_other_keys : bool
}.

(** [if secret:] on a dict: it has at least one key. *)
Definition secret_truthy (s : secret) : bool :=
  match stringData s, data s with
  | None, None => has_other_keys s
  | _, _ => true
  end.

(** [ctx.config]: the two options the transform reads. *)
Record configuration := Configuration {
  volume_root : option string;
  overrides : option (gset string)
}.

(** The Run Context. *)
Record context := RunContext {
  secrets : gmap string secret;
  config : configuration
}.

(** [base64.b64decode(val).decode("utf-8")] belongs to Python's library:
    the decoder is a parameter of the development. It gives the decoded
    text, or [None] when the call raises [ValueError] (which
    [binascii.Error] is) or [UnicodeDecodeError]. *)
Class Base64Decoder := b64decode_utf8 : string → option string.

(** ** The helpers *)

(** The line [_log] prints to stderr. *)
Definition _log (msg : string) : string := "  [bitnami] " +:+ msg.

Section Helpers.
Context `{dec : Base64Decoder}.

(** [_secret_value]: [None] is Python's [None]. *)
Definition _secret_value (secret : secret) (key : string) : option string :=
  match default ∅ (stringData secret) !! key with
  | Some val => Some val
  | None =>
      match default ∅ (data secret) !! key with
      | Some val =>
          match b64decode_utf8 val with
          | Some text => Some text
          | None => Some val
          end
      | None => None
      end
  end.
End Helpers.

(** [_is_bitnami_image] *)
Definition _is_bitnami_image (svc : service) (name_fragment : string) : bool :=
  let image := default "" (image svc) in
  Py.contains "bitnami" image && Py.contains name_fragment image.

(** [_find_secret]: [None] is the pair [(None, None)]. *)
Fixpoint _find_secret (secrets : gmap string secret) (candidates : list string)
  : option (string * secret) :=
  match candidates with
  | [] => None
  | name :: candidates' =>
      match secrets !! name with
      | Some s => Some (name, s)
      | None => _find_secret secrets candidates'
      end
  end.

(** ** Redis *)

(** The local [prefix] of [_fix_redis]. *)
Definition _fix_redis_prefix (svc_name : string) : string :=
  Py.replace (Py.replace svc_name "-redis-master" "") "-master" "".

(** The local [candidates] of [_fix_redis]. *)
Definition _fix_redis_candidates (svc_name : string) : list string :=
  let prefix := _fix_redis_prefix svc_name in
  [prefix +:+ "-redis"; prefix; svc_name].

Section Repairs.
Context `{dec : Base64Decoder}.

(** The local [password] of [_fix_redis], with the name of the Secret
    it was looked up in. *)
Definition _fix_redis_password (svc_name : string) (ctx : context)
  : option string :=
  match _find_secret (secrets ctx) (_fix_redis_candidates svc_name) with
  | Some (_, secret) =>
      if secret_truthy secret
      then _secret_value secret "redis-password"
      else None
  | None => None
  end.

(** [_fix_redis]: the record as the routine leaves it, and the lines it
    logs, in order. *)
Definition _fix_redis (svc_name : string) (svc : service) (ctx : context)
  : service * list string :=
  let found := _find_secret (secrets ctx) (_fix_redis_candidates svc_name) in
  let sec_name := default "None" (fst <$> found) in
  let password := _fix_redis_password svc_name ctx in
  let svc := set_image "redis:7-alpine" svc in
  let l1 := _log (svc_name +:+ ": image → redis:7-alpine") in
  let svc := pop_entrypoint svc in
  let l2 := _log (svc_name +:+ ": removed Bitnami entrypoint") in
  let cmd := ["redis-server"] in
  let '(cmd, l3) :=
    match password with
    | Some pw =>
        if Py.truthy pw
        then (cmd ++ ["--requirepass"; pw],
              _log (svc_name +:+ ": password set from Secret '"
                      +:+ sec_name +:+ "'"))
        else (cmd, _log (svc_name +:+
                ": ⚠ no redis-password found, running without auth"))
    | None => (cmd, _log (svc_name +:+
                ": ⚠ no redis-password found, running without auth"))
    end in
  let svc := set_command cmd svc in
  let volume_root := default "./data" (volume_root (config ctx)) in
  let svc := set_volumes [volume_root +:+ "/" +:+ svc_name +:+ ":/data"] svc in
  let l4 := _log (svc_name +:+ ": volume → " +:+ volume_root +:+ "/"
                    +:+ svc_name +:+ ":/data") in
  let svc := pop_environment svc in
  let l5 := _log (svc_name +:+ ": removed Bitnami environment") in
  (svc, [l1; l2; l3; l4; l5]).

(** ** PostgreSQL *)

(** [_fix_postgresql] *)
Definition _fix_postgresql (svc_name : string) (svc : service) (ctx : context)
  : service * list string :=
  let volume_root := default "./data" (volume_root (config ctx)) in
  let volumes := [volume_root +:+ "/" +:+ svc_name +:+ ":/bitnami/postgresql"] in
  let l1 := _log (svc_name +:+ ": data volume → /bitnami/postgresql") in
  let volumes :=
    volumes ++ ["./secrets/" +:+ svc_name
                  +:+ ":/opt/bitnami/postgresql/secrets:ro"] in
  let l2 := _log (svc_name +:+ ": secrets mount → /opt/bitnami/postgresql/secrets") in
  (set_volumes volumes svc, [l1; l2]).

(** ** Keycloak *)

(** The local [prefix] of [_fix_keycloak]. *)
Definition _fix_keycloak_prefix (svc_name : string) : string :=
  Py.strip (Py.replace (Py.replace svc_name "-keycloak" "") "keycloak" "") "-".

(** One credential of [_fix_keycloak]: resolve the Secret among
    [candidates], read [key] and export it as [var]; the source writes
    this block twice (lines 114-119 and 122-129). *)
Definition _fix_keycloak_inject (svc_name : string) (ctx : context)
    (candidates : list string) (key var : string) (svc : service)
  : service * list string :=
  match _find_secret (secrets ctx) candidates with
  | Some (sec_name, secret) =>
      if secret_truthy secret then
        match _secret_value secret key with
        | Some pw =>
            if Py.truthy pw
            then (setdefault_environment var pw svc,
                  [_log (svc_name +:+ ": " +:+ var +:+ " set from Secret '"
                           +:+ sec_name +:+ "'")])
            else (svc, [])
        | None => (svc, [])
        end
      else (svc, [])
  | None => (svc, [])
  end.

(** The local [sec_candidates] of [_fix_keycloak]. *)
Definition _fix_keycloak_sec_candidates (svc_name : string) : list string :=
  let prefix := _fix_keycloak_prefix svc_name in
  if Py.truthy prefix
  then [prefix +:+ "-keycloak"; svc_name; "keycloak"]
  else [svc_name; "keycloak"].

(** The local [db_candidates] of [_fix_keycloak]. *)
Definition _fix_keycloak_db_candidates (svc_name : string) : list string :=
  let prefix := _fix_keycloak_prefix svc_name in
  [ (if Py.truthy prefix then prefix +:+ "-postgresql"
     else "keycloak-postgresql");
    "keycloak-postgresql" ].

(** [_fix_keycloak] *)
Definition _fix_keycloak (svc_name : string) (svc : service) (ctx : context)
  : service * list string :=
  let '(svc, l1) :=
    _fix_keycloak_inject svc_name ctx (_fix_keycloak_sec_candidates svc_name)
      "admin-password" "KC_BOOTSTRAP_ADMIN_PASSWORD" svc in
  let '(svc, l2) :=
    _fix_keycloak_inject svc_name ctx (_fix_keycloak_db_candidates svc_name)
      "password" "KC_DB_PASSWORD" svc in
  (svc, l1 ++ l2).
End Repairs.

(** ** State and exceptions of the entry routine *)

(** The exception the transform can raise on these types: [d[k]] and
    [del d[k]] on an absent key. *)
Inductive exn := KeyError (key : string).

Inductive result (A : Type) :=
  | Ok (a : A)
  | Raise (e : exn).
Arguments Ok {A} a.
Arguments Raise {A} e.

(** What the transform mutates: the Service Set it was handed and the
    diagnostics stream. *)
Record world := World {
  compose_services : list (string * service);
  stderr : list string
}.

(** A computation returns or raises, and leaves the world as it was at
    that point: Python does not roll mutations back. *)
Definition M (A : Type) : Type := world → result A * world.

#[global] Instance M_ret : MRet M := λ A a w, (Ok a, w).

#[global] Instance M_bind : MBind M := λ A B f m w,
  match m w with
  | (Ok a, w') => f a w'
  | (Raise e, w') => (Raise e, w')
  end.

(** [list(compose_services)] *)
Definition snapshot : M (list string) :=
  λ w, (Ok (Dict.keys (compose_services w)), w).

(** [compose_services[name]] *)
Definition getitem (name : string) : M service :=
  λ w, match Dict.get (compose_services w) name with
       | Some svc => (Ok svc, w)
       | None => (Raise (KeyError name), w)
       end.

(** The writes of a repair routine to [svc], the object that
    [compose_services[name]] holds: they are seen through the dict. *)
Definition mutate (name : string) (svc : service) : M unit :=
  λ w, (Ok tt, World (Dict.set (compose_services w) name svc) (stderr w)).

(** [del compose_services[name]] *)
Definition delitem (name : string) : M unit :=
  λ w, match Dict.del (compose_services w) name with
       | Some d => (Ok tt, World d (stderr w))
       | None => (Raise (KeyError name), w)
       end.

(** The lines a routine logged reach the stream. *)
Definition emit (lines : list string) : M unit :=
  λ w, (Ok tt, World (compose_services w) (stderr w ++ lines)).

(** [for x in xs: body(x)] *)
Fixpoint for_each {A : Type} (xs : list A) (body : A → M unit) : M unit :=
  match xs with
  | [] => mret tt
  | x :: xs' => body x;; for_each xs' body
  end.

(** The condition of the [if] in [_fix_keycloak_init]. *)
Definition is_keycloak_init (svc_name name : string) : bool :=
  Py.contains (Py.replace svc_name "-keycloak" "") name
  && Py.contains "init-prepare-write-dirs" name.

(** [_fix_keycloak_init] *)
Definition _fix_keycloak_init (svc_name : string) : M unit :=
  names ← snapshot;
  let to_remove := List.filter (is_keycloak_init svc_name) names in
  for_each to_remove (λ name,
    delitem name;;
    emit [_log (name +:+ ": removed (emptyDir copy fails in compose)")]).

Section Transform.
Context `{dec : Base64Decoder}.

(** The body of the loop of [transform]. *)
Definition transform_body (ctx : context) (user_overrides : gset string)
    (svc_name : string) : M unit :=
  if bool_decide (svc_name ∈ user_overrides) then mret tt
  else
    svc ← getitem svc_name;
    if _is_bitnami_image svc "redis" then
      let '(svc', lines) := _fix_redis svc_name svc ctx in
      mutate svc_name svc';; emit lines
    else if _is_bitnami_image svc "postgresql" then
      let '(svc', lines) := _fix_postgresql svc_name svc ctx in
      mutate svc_name svc';; emit lines
    else if _is_bitnami_image svc "keycloak" then
      let '(svc', lines) := _fix_keycloak svc_name svc ctx in
      mutate svc_name svc';; emit lines;;
      _fix_keycloak_init svc_name
    else mret tt.

(** [BitnamiWorkarounds.transform] *)
Definition transform (ctx : context) : M unit :=
  let user_overrides := default ∅ (overrides (config ctx)) in
  names ← snapshot;
  for_each names (transform_body ctx user_overrides).

(** One call of the transform on a Service Set, the stream empty. *)
Definition run_transform (compose_services : list (string * service))
    (ctx : context) : result unit * world :=
  transform ctx (World compose_services []).
End Transform.

(** ** The naming prefix as the specification words it *)

Module Spec.

(** [s] with the suffix [p] stripped when [s] ends with it, and [s]
    itself otherwise ([str.removesuffix]). *)
Fixpoint removesuffix (s p : string) : string :=
  if String.eqb s p then ""
  else match s with
       | "" => ""
       | String c s' => String c (removesuffix s' p)
       end.

(** [s.endswith(p)] *)
Fixpoint endswith (s p : string) : bool :=
  String.eqb s p ||
  match s with
  | "" => false
  | String _ s' => endswith s' p
  end.

(** "Stripping the suffix -redis-master, or failing that the suffix
    -master; a name ending in neither yields itself." *)
Definition redis_prefix (svc_name : string) : string :=
  if endswith svc_name "-redis-master"
  then removesuffix svc_name "-redis-master"
  else removesuffix svc_name "-master".

End Spec.

(** ** Sample inputs *)

Module Sample.

(** A decoder that knows the encodings used below and rejects every
    other string. *)
Definition decoder : Base64Decoder := λ val,
  if String.eqb val "czNjcmV0" then Some "s3cret"
  else if String.eqb val "" then Some ""
  else None.

(** A service record with only its [image] key. *)
Definition svc (img : string) : service :=
  Service (Some img) None None None None ∅.

(** A Secret manifest with plaintext entries only. *)
Definition plain (entries : gmap string string) : secret :=
  Secret (Some entries) None true.

(** The Run Context with the default configuration. *)
Definition ctx (secrets : gmap string secret) : context :=
  RunContext secrets (Configuration None None).

Definition cache_secrets : gmap string secret :=
  {[ "cache-redis" := plain {[ "redis-password" := "s3cret" ]} ]}.

Definition app_secrets : gmap string secret :=
  {[ "app-redis" := plain {[ "redis-password" := "one" ]};
     "app" := plain {[ "redis-password" := "two" ]} ]}.

Definition auth_secrets : gmap string secret :=
  {[ "auth-keycloak" := plain {[ "admin-password" := "adminpw" ]};
     "keycloak-postgresql" := plain {[ "password" := "dbpw" ]} ]}.

Definition auth_environment : gmap string string :=
  {[ "KC_BOOTSTRAP_ADMIN_PASSWORD" := "adminpw";
     "KC_DB_PASSWORD" := "dbpw" ]}.

(** Secrets that resolve but carry no usable value: an empty string, an
    empty mapping, an empty decoded entry. *)
Definition blank_secrets : gmap string secret :=
  {[ "cache-redis" := plain {[ "redis-password" := "" ]};
     "auth-keycloak" := Secret None None false;
     "keycloak-postgresql" := Secret None (Some {[ "password" := "" ]}) true ]}.

Definition keycloak : service := svc "bitnami/keycloak:23".

Definition keycloak_repaired : service :=
  Service (Some "bitnami/keycloak:23") None None None
          (Some auth_environment) ∅.

Definition init : service := svc "busybox:1.36".

(** Scenario C, in the two insertion orders of its Service Set. *)
Definition keycloak_first : list (string * service) :=
  [("auth-keycloak", keycloak); ("auth-init-prepare-write-dirs", init)].

Definition init_first : list (string * service) :=
  [("auth-init-prepare-write-dirs", init); ("auth-keycloak", keycloak)].

(** Scenario C next to a service of no family. *)
Definition with_web : list (string * service) :=
  ("web", svc "nginx:1.25") :: init_first.

(** What the identity repair logs in scenario C. *)
Definition auth_lines : list string :=
  [ "  [bitnami] auth-keycloak: KC_BOOTSTRAP_ADMIN_PASSWORD set from Secret 'auth-keycloak'";
    "  [bitnami] auth-keycloak: KC_DB_PASSWORD set from Secret 'keycloak-postgresql'";
    "  [bitnami] auth-init-prepare-write-dirs: removed (emptyDir copy fails in compose)" ].

(** The operator has configured the companion service by hand. *)
Definition init_overridden : context :=
  RunContext auth_secrets
    (Configuration None (Some {[ "auth-init-prepare-write-dirs" ]})).

End Sample.

(** ** What a run may do to an entry it does not repair *)

(** The image of [svc] is of none of the three families. *)
Definition unmatched (svc : service) : bool :=
  negb (_is_bitnami_image svc "redis")
  && negb (_is_bitnami_image svc "postgresql")
  && negb (_is_bitnami_image svc "keycloak").

(** The entry [name ↦ svc] in the course of a run over the snapshot
    [names] with the overrides [ov]: it is in the Service Set with the
    same record, or it has been deleted as the companion of a service of
    the snapshot that is not overridden. *)
Definition kept_or_companion (names : list string) (ov : gset string)
    (name : string) (svc : service) (w : world) : Prop :=
  NoDup (Dict.keys (compose_services w))
  ∧ (Dict.get (compose_services w) name = Some svc
     ∨ (Dict.get (compose_services w) name = None
        ∧ ∃ kc, kc ∈ names ∧ (kc ∉ ov) ∧ is_keycloak_init kc name = true)).

(** ** Whole runs *)

(** The line [_fix_keycloak_init] logs for a deleted entry. *)
Definition removal_line (name : string) : string :=
  _log (name +:+ ": removed (emptyDir copy fails in compose)").

(** What the loop of [transform] does to one entry on its own: the
    dispatch of lines 159-169, without the removal of companions. *)
Definition repair `{dec : Base64Decoder} (ctx : context) (name : string)
    (svc : service) : service * list string :=
  if bool_decide (name ∈ default ∅ (overrides (config ctx))) then (svc, [])
  else if _is_bitnami_image svc "redis" then _fix_redis name svc ctx
  else if _is_bitnami_image svc "postgresql" then _fix_postgresql name svc ctx
  else if _is_bitnami_image svc "keycloak" then _fix_keycloak name svc ctx
  else (svc, []).

(** Every entry repaired on its own, in place. *)
Definition repaired `{dec : Base64Decoder} (ctx : context)
    (cs : list (string * service)) : list (string * service) :=
  (λ kv, (kv.1, (repair ctx kv.1 kv.2).1)) <$> cs.

(** The lines of these repairs, in the order of the entries. *)
Definition repair_lines `{dec : Base64Decoder} (ctx : context)
    (cs : list (string * service)) : list string :=
  concat ((λ kv, (repair ctx kv.1 kv.2).2) <$> cs).

(** No name of the Service Set carries the marker of a companion. *)
Definition no_companion_names (cs : list (string * service)) : Prop :=
  ∀ n, n ∈ Dict.keys cs → Py.contains "init-prepare-write-dirs" n = false.

(** The names of the Service Set in the course of a run that started
    from [cs0]: distinct, in the order they had, and with every name
    that does not carry the marker of a companion still there. *)
Definition names_kept (cs0 : list (string * service)) (w : world) : Prop :=
  NoDup (Dict.keys (compose_services w))
  ∧ Dict.keys (compose_services w) `sublist_of` Dict.keys cs0
  ∧ ∀ n, n ∈ Dict.keys cs0 →
         Py.contains "init-prepare-write-dirs" n = false →
         n ∈ Dict.keys (compose_services w).

(** The only way a run raises: the lookup of a name of the snapshot
    that is not overridden, carries the marker of a companion and is no
    longer in the Service Set. *)
Definition raised_on_deleted (cs0 : list (string * service)) (ov : gset string)
    (e : exn) (w : world) : Prop :=
  ∃ n, e = KeyError n ∧ n ∈ Dict.keys cs0 ∧ (n ∉ ov)
       ∧ Py.contains "init-prepare-write-dirs" n = true
       ∧ Dict.get (compose_services w) n = None.

(** A line as [_log] prints it. *)
Definition is_log_line (line : string) : Prop :=
  Py.startswith line "  [bitnami] " = true.

(** ** More sample inputs *)

Module Fixture.

(** A cache, a database and a web service. *)
Definition mixed : list (string * service) :=
  [ ("cache-redis-master", Sample.svc "bitnami/redis:7.2");
    ("db-postgresql", Sample.svc "bitnami/postgresql:16");
    ("web", Sample.svc "nginx:1.25") ].

(** Services of no family, one of them with a companion name. *)
Definition plain_set : list (string * service) :=
  [ ("web", Sample.svc "nginx:1.25");
    ("auth-init-prepare-write-dirs", Sample.init) ].

End Fixture.

(** ** Python's decoder

    A model of the library call that [Base64Decoder] stands for, after
    CPython's [base64.b64decode] (default [validate=False]) and
    [binascii.a2b_base64], for the statements that depend on which
    strings Python accepts. Bytes are [N] below 256. *)

Module Python.

(** [table_a2b_base64]: the value of a character of the base64 alphabet,
    [None] for every other character. *)
Definition b64_value (c : ascii) : option N :=
  let n := N_of_ascii c in
  if (65 <=? n)%N && (n <=? 90)%N then Some (n - 65)%N
  else if (97 <=? n)%N && (n <=? 122)%N then Some (n - 71)%N
  else if (48 <=? n)%N && (n <=? 57)%N then Some (n + 4)%N
  else if (n =? 43)%N then Some 62%N
  else if (n =? 47)%N then Some 63%N
  else None.

(** An [unsigned char]. *)
Definition u8 (n : N) : N := N.land n 255.

(** The loop of [binascii.a2b_base64] in its default, non-strict mode:
    [quad_pos] is the position in the current group of four characters,
    [leftchar] the bits left over from the previous character, [pads] the
    number of padding characters just seen, [out] the bytes written so
    far. A character outside the alphabet is skipped; padding that
    completes a group ends the input; input that ends inside a group is
    an error ([None]). *)
Fixpoint a2b_base64_loop (s : string) (quad_pos : nat) (leftchar : N)
    (pads : nat) (out : list N) : option (list N) :=
  match s with
  | "" => match quad_pos with O => Some out | _ => None end
  | String c s' =>
      if Ascii.eqb c "="
      then
        if (2 <=? quad_pos) && (4 <=? quad_pos + S pads)
        then Some out
        else a2b_base64_loop s' quad_pos leftchar
               (if 2 <=? quad_pos then S pads else pads) out
      else
        match b64_value c with
        | None => a2b_base64_loop s' quad_pos leftchar pads out
        | Some this_ch =>
            match quad_pos with
            | 0 => a2b_base64_loop s' 1 this_ch 0 out
            | 1 =>
                a2b_base64_loop s' 2 (N.land this_ch 15) 0
                  (out ++ [u8 (N.lor (N.shiftl leftchar 2)
                                     (N.shiftr this_ch 4))])
            | 2 =>
                a2b_base64_loop s' 3 (N.land this_ch 3) 0
                  (out ++ [u8 (N.lor (N.shiftl leftchar 4)
                                     (N.shiftr this_ch 2))])
            | _ =>
                a2b_base64_loop s' 0 0%N 0
                  (out ++ [u8 (N.lor (N.shiftl leftchar 6) this_ch)])
            end
        end
  end.

(** [s.encode("ascii")] succeeds. *)
Fixpoint is_ascii (s : string) : bool :=
  match s with
  | "" => true
  | String c s' => (N_of_ascii c <? 128)%N && is_ascii s'
  end.

(** [base64.b64decode(s)] on a [str]: [None] is [ValueError] (a
    character that is not ASCII) or [binascii.Error]. *)
Definition b64decode (s : string) : option (list N) :=
  if is_ascii s then a2b_base64_loop s 0 0%N 0 [] else None.

(** A continuation byte of UTF-8. *)
Definition continuation (b : N) : bool := (128 <=? b)%N && (b <=? 191)%N.

(** The byte sequences that [bytes.decode("utf-8")] accepts: well-formed
    UTF-8, without overlong forms, surrogates or code points above
    U+10FFFF. *)
Fixpoint utf8_valid (bs : list N) : bool :=
  match bs with
  | [] => true
  | b1 :: r1 =>
      if (b1 <? 128)%N then utf8_valid r1
      else
        match r1 with
        | [] => false
        | b2 :: r2 =>
            if (194 <=? b1)%N && (b1 <=? 223)%N
            then continuation b2 && utf8_valid r2
            else
              match r2 with
              | [] => false
              | b3 :: r3 =>
                  if (224 <=? b1)%N && (b1 <=? 239)%N
                  then
                    (if (b1 =? 224)%N then (160 <=? b2)%N && (b2 <=? 191)%N
                     else if (b1 =? 237)%N then (128 <=? b2)%N && (b2 <=? 159)%N
                     else continuation b2)
                    && continuation b3 && utf8_valid r3
                  else
                    match r3 with
                    | [] => false
                    | b4 :: r4 =>
                        if (240 <=? b1)%N && (b1 <=? 244)%N
                        then
                          (if (b1 =? 240)%N
                           then (144 <=? b2)%N && (b2 <=? 191)%N
                           else if (b1 =? 244)%N
                           then (128 <=? b2)%N && (b2 <=? 143)%N
                           else continuation b2)
                          && continuation b3 && continuation b4
                          && utf8_valid r4
                        else false
                    end
              end
        end
  end.

(** The text of a byte sequence: a [str] is kept as its UTF-8 bytes. *)
Fixpoint text_of_bytes (bs : list N) : string :=
  match bs with
  | [] => ""
  | b :: bs' => String (ascii_of_N b) (text_of_bytes bs')
  end.

(** [base64.b64decode(val).decode("utf-8")]: [None] when either call
    raises ([ValueError], [binascii.Error], [UnicodeDecodeError]). *)
Definition decoder : Base64Decoder := λ val,
  match b64decode val with
  | Some bs => if utf8_valid bs then Some (text_of_bytes bs) else None
  | None => None
  end.

(** The number of characters of the base64 alphabet in [s]. *)
Fixpoint alphabet_count (s : string) : nat :=
  match s with
  | "" => 0
  | String c s' =>
      match b64_value c with
      | Some _ => S (alphabet_count s')
      | None => alphabet_count s'
      end
  end.

End Python.


(** ** Base64 strings as the specification means them *)

Module Base64.

(** A character of the base64 alphabet. *)
Definition in_alphabet (c : ascii) : bool :=
  match Python.b64_value c with Some _ => true | None => false end.

(** "A base64 string" in the sense of RFC 4648: groups of four characters
    of the alphabet, the last group ending in at most two "=". *)
Fixpoint well_formed (s : string) : bool :=
  match s with
  | "" => true
  | String a (String b (String c (String d rest))) =>
      in_alphabet a && in_alphabet b
      && match rest with
         | "" =>
             (in_alphabet c && (in_alphabet d || Ascii.eqb d "="))
             || (Ascii.eqb c "=" && Ascii.eqb d "=")
         | _ => in_alphabet c && in_alphabet d && well_formed rest
         end
  | _ => false
  end.

End Base64.

(** ** Companions of repaired Keycloak-family services *)

(** The loop repairs the entry [kc ↦ kcsvc] as a Keycloak-family service:
    it is not overridden and the dispatch reaches the third branch. *)
Definition repaired_as_keycloak (ov : gset string) (kc : string)
    (kcsvc : service) : Prop :=
  (kc ∉ ov)
  ∧ _is_bitnami_image kcsvc "redis" = false
  ∧ _is_bitnami_image kcsvc "postgresql" = false
  ∧ _is_bitnami_image kcsvc "keycloak" = true.

(** [name] is a companion of a service of [cs] that the loop repairs as
    a Keycloak-family service. *)
Definition keycloak_companion (cs : list (string * service)) (ov : gset string)
    (name : string) : Prop :=
  ∃ kc kcsvc, Dict.get cs kc = Some kcsvc
    ∧ repaired_as_keycloak ov kc kcsvc
    ∧ is_keycloak_init kc name = true.

(** The entry [name ↦ svc] in the course of a run that started from
    [cs0]: there with its record, or deleted as the companion of a
    repaired Keycloak-family service. *)
Definition entry_tracked (cs0 : list (string * service)) (ov : gset string)
    (name : string) (svc : service) (w : world) : Prop :=
  Dict.get (compose_services w) name = Some svc
  ∨ (Dict.get (compose_services w) name = None
     ∧ keycloak_companion cs0 ov name).

(** What holds when the names [rest] of the snapshot are still to be
    processed: the services of [rest] that are still there have the
    record they had in [cs0], the entry of [name] is tracked, and it is
    gone once a Keycloak-family service it is a companion of has been
    processed. *)
Definition entry_before (cs0 : list (string * service)) (ov : gset string)
    (name : string) (svc : service) (rest : list string) (w : world) : Prop :=
  NoDup rest
  ∧ NoDup (Dict.keys (compose_services w))
  ∧ (∀ n cur, n ∈ rest → Dict.get (compose_services w) n = Some cur →
       Dict.get cs0 n = Some cur)
  ∧ entry_tracked cs0 ov name svc w
  ∧ (∀ kc kcsvc, Dict.get cs0 kc = Some kcsvc →
       repaired_as_keycloak ov kc kcsvc →
       is_keycloak_init kc name = true →
       kc ∉ rest → Dict.get (compose_services w) name = None).

(** * Properties *)

#[local] Arguments String.append : simpl nomatch.
#[local] Arguments Ascii.eqb : simpl never.

Example replace_ex1 : Py.replace "cache-redis-master" "-redis-master" "" = "cache".
Proof. reflexivity. Qed.
Example replace_ex2 : Py.replace "aXXbXXXc" "XX" "-" = "a-b-Xc".
Proof. reflexivity. Qed.
Example replace_ex3 : Py.replace "ab" "" "-" = "-a-b-".
Proof. reflexivity. Qed.
Example strip_ex1 : Py.strip "--a-b-" "-" = "a-b".
Proof. reflexivity. Qed.
Example strip_ex2 : Py.strip "---" "-" = "".
Proof. reflexivity. Qed.
Example contains_ex1 : Py.contains "redis" "bitnami/redis:7.2" = true.
Proof. reflexivity. Qed.
Example contains_ex2 : Py.contains "" "" = true.
Proof. reflexivity. Qed.
Example keycloak_prefix_ex1 : _fix_keycloak_prefix "auth-keycloak" = "auth".
Proof. reflexivity. Qed.
Example keycloak_prefix_ex2 : _fix_keycloak_prefix "keycloak" = "".
Proof. reflexivity. Qed.
Example keycloak_init_ex1 :
  is_keycloak_init "auth-keycloak" "auth-init-prepare-write-dirs" = true.
Proof. reflexivity. Qed.
Example keycloak_init_ex2 :
  is_keycloak_init "auth-keycloak" "auth-keycloak" = false.
Proof. reflexivity. Qed.
Example removesuffix_ex1 : Spec.redis_prefix "cache-redis-master" = "cache".
Proof. reflexivity. Qed.
Example removesuffix_ex2 : Spec.redis_prefix "db-master" = "db".
Proof. reflexivity. Qed.
Example removesuffix_ex3 : Spec.redis_prefix "master-db" = "master-db".
Proof. reflexivity. Qed.

(** ** Facts about the string operations *)

Section StringFacts.
Implicit Types s p q old new rest : string.

Lemma app_empty_r s : s +:+ "" = s.
Proof. induction s; simpl; congruence. Qed.

Lemma length_app_str s p :
  String.length (s +:+ p) = String.length s + String.length p.
Proof. induction s; simpl; congruence. Qed.

Lemma startswith_app s p :
  Py.startswith s p = true ↔ ∃ rest, s = p +:+ rest.
Proof.
  revert s. induction p as [|a p IH]; intros s; simpl.
  - split; [intros _; exists s; reflexivity | done].
  - destruct s as [|b s]; simpl.
    + split; [done | intros [? ?]; done].
    + destruct (Ascii.eqb_spec a b) as [Heq|Hne].
      * subst. rewrite IH. split; intros [r Hr]; exists r; congruence.
      * split; [done | intros [r Hr]; congruence].
Qed.

Lemma contains_cons_false p c s :
  Py.contains p (String c s) = false →
  Py.startswith (String c s) p = false ∧ Py.contains p s = false.
Proof. simpl. intros [? ?]%orb_false_elim. done. Qed.

Lemma contains_suffix p s q :
  Py.contains p (s +:+ q) = false → Py.contains p q = false.
Proof.
  induction s as [|c s IH]; simpl; [done|].
  intros [_ ?]%orb_false_elim. auto.
Qed.

(** Skipping the rest of a matched occurrence. *)
Lemma replace_from_skip s rest old new :
  Py.replace_from (String.length s) (s +:+ rest) old new
  = Py.replace_from 0 rest old new.
Proof.
  induction s as [|c s IH]; simpl; [|done].
  destruct rest; done.
Qed.

(** A string without an occurrence of [old] is left as it is. *)
Lemma replace_from_absent s old new :
  Py.contains old s = false → Py.replace_from 0 s old new = s.
Proof.
  induction s as [|c s IH]; [done|].
  intros [Hs Hc]%contains_cons_false.
  cbn [Py.replace_from]. rewrite Hs, IH; done.
Qed.

(** The scan copies a stretch at no position of which [old] matches. *)
Lemma replace_from_copy s rest old new :
  (∀ s1 c s2, s = s1 +:+ String c s2 →
     Py.startswith (String c s2 +:+ rest) old = false) →
  Py.replace_from 0 (s +:+ rest) old new
  = s +:+ Py.replace_from 0 rest old new.
Proof.
  induction s as [|c s IH]; intros Hno; [done|].
  change (String c s +:+ rest) with (String c (s +:+ rest)).
  cbn [Py.replace_from].
  change (String c (s +:+ rest)) with (String c s +:+ rest).
  rewrite (Hno "" c s eq_refl). simpl. f_equal.
  apply IH. intros s1 c' s2 ->. by apply (Hno (String c s1)).
Qed.

(** A character that is not in [s] starts no occurrence in [s]. *)
Lemma char_absent_contains c old s :
  Py.contains (String c "") s = false →
  Py.contains (String c old) s = false.
Proof.
  induction s as [|b s IH]; [done|].
  intros [Hs Hc]%contains_cons_false. simpl in *.
  destruct (Ascii.eqb c b); [done|]. auto.
Qed.

Lemma char_absent_app c s q :
  Py.contains (String c "") s = false →
  Py.contains (String c "") q = false →
  Py.contains (String c "") (s +:+ q) = false.
Proof.
  intros Hs Hq. induction s as [|b s IH]; [done|].
  apply contains_cons_false in Hs as [Hs Hc]. simpl in *.
  destruct (Ascii.eqb c b); [done|]. auto.
Qed.

Lemma replace_from_copy_char c old s rest new :
  Py.contains (String c "") s = false →
  Py.replace_from 0 (s +:+ rest) (String c old) new
  = s +:+ Py.replace_from 0 rest (String c old) new.
Proof.
  intros Hs. apply replace_from_copy. intros s1 b s2 ->.
  apply contains_suffix, contains_cons_false in Hs as [Hs _].
  simpl in *. destruct (Ascii.eqb c b); done.
Qed.
Lemma contains_app_self p rest : Py.contains p (p +:+ rest) = true.
Proof.
  assert (Py.startswith (p +:+ rest) p = true) as E
    by (apply startswith_app; by exists rest).
  destruct (p +:+ rest); simpl; by rewrite E.
Qed.
End StringFacts.

(** ** The naming prefix of the cache repair *)

Section RedisPrefix.
Implicit Types p q a b name : string.

(** Case analysis on the leading characters of a string against a
    literal pattern. *)
Ltac by_leading_chars :=
  repeat match goal with
  | |- context [Ascii.eqb ?a ?b] =>
      destruct (Ascii.eqb_spec a b); subst; simpl in *; try done
  | q : string |- _ => destruct q; simpl in *; try done
  end.

(** Before a final "-redis-master", no occurrence of it starts inside
    a stretch that is free of "-master". *)
Lemma no_early_redis_master c q :
  Py.contains "-master" (String c q) = false →
  Py.startswith (String c q +:+ "-redis-master") "-redis-master" = false.
Proof. intros Hc. simpl in *. by_leading_chars. Qed.

Lemma no_early_master c q :
  Py.contains "-master" (String c q) = false →
  Py.startswith (String c q +:+ "-master") "-master" = false.
Proof. intros Hc. simpl in *. by_leading_chars. Qed.

Lemma no_redis_master_over_master q :
  Py.contains "-master" q = false → q ≠ "-redis" →
  Py.startswith (q +:+ "-master") "-redis-master" = false.
Proof. intros Hc Hq. destruct q; simpl in *; [done|]. by_leading_chars. Qed.

Lemma master_absent_redis_master_absent name :
  Py.contains "-master" name = false →
  Py.contains "-redis-master" name = false.
Proof.
  induction name as [|c s IH]; [done|].
  intros [Hs Hc]%contains_cons_false.
  cbn [Py.contains]. rewrite (IH Hc), orb_false_r.
  destruct (Py.startswith (String c s) "-redis-master") eqn:E; [|done].
  apply startswith_app in E as [rest E].
  change ("-redis-master" +:+ rest)
    with (String "-"%char ("redis" +:+ ("-master" +:+ rest))) in E.
  injection E as -> ->.
  apply (contains_suffix _ "redis" ("-master" +:+ rest)) in Hc.
  by rewrite contains_app_self in Hc.
Qed.

Lemma redis_prefix_absent name :
  Py.contains "-master" name = false → _fix_redis_prefix name = name.
Proof.
  intros Hc. unfold _fix_redis_prefix, Py.replace.
  rewrite (replace_from_absent name "-redis-master");
    [|by apply master_absent_redis_master_absent].
  by apply replace_from_absent.
Qed.

Lemma redis_prefix_redis_master p :
  Py.contains "-master" p = false →
  _fix_redis_prefix (p +:+ "-redis-master") = p.
Proof.
  intros Hc. unfold _fix_redis_prefix, Py.replace.
  rewrite replace_from_copy.
  - change (Py.replace_from 0 "-redis-master" "-redis-master" "") with "".
    rewrite app_empty_r. by apply replace_from_absent.
  - intros s1 c s2 ->. apply no_early_redis_master.
    by apply contains_suffix in Hc.
Qed.

Lemma redis_prefix_master p :
  Py.contains "-master" p = false → (∀ p', p ≠ p' +:+ "-redis") →
  _fix_redis_prefix (p +:+ "-master") = p.
Proof.
  intros Hc Hne. unfold _fix_redis_prefix, Py.replace.
  assert (Py.replace_from 0 (p +:+ "-master") "-redis-master" ""
          = p +:+ "-master") as ->.
  { rewrite replace_from_copy; [done|].
    intros s1 c s2 ->. apply no_redis_master_over_master.
    - by apply contains_suffix in Hc.
    - intros E. apply (Hne s1). by rewrite E. }
  rewrite replace_from_copy.
  - change (Py.replace_from 0 "-master" "-master" "") with "".
    by rewrite app_empty_r.
  - intros s1 c s2 ->. apply no_early_master.
    by apply contains_suffix in Hc.
Qed.

Lemma redis_prefix_inner_master a b :
  Py.contains "-" a = false → Py.contains "-" b = false →
  _fix_redis_prefix (a +:+ "-master" +:+ b) = a +:+ b.
Proof.
  intros Ha Hb. unfold _fix_redis_prefix, Py.replace.
  assert (Py.replace_from 0 (a +:+ "-master" +:+ b) "-redis-master" ""
          = a +:+ "-master" +:+ b) as ->.
  { rewrite replace_from_copy_char by done. f_equal.
    simpl. do 7 f_equal.
    by apply replace_from_absent, char_absent_contains. }
  rewrite replace_from_copy_char by done. f_equal.
  change ("-master" +:+ b) with (String "-"%char ("master" +:+ b)).
  cbn [Py.replace_from].
  assert (Py.startswith (String "-"%char ("master" +:+ b)) "-master" = true) as ->.
  { apply startswith_app. by exists b. }
  change (String.length "-master" - 1) with (String.length "master").
  rewrite replace_from_skip. simpl.
  by apply replace_from_absent, char_absent_contains.
Qed.

Lemma redis_prefix_inner_redis_master a b :
  Py.contains "-" a = false → Py.contains "-" b = false →
  _fix_redis_prefix (a +:+ "-redis-master" +:+ b) = a +:+ b.
Proof.
  intros Ha Hb. unfold _fix_redis_prefix, Py.replace.
  assert (Py.replace_from 0 (a +:+ "-redis-master" +:+ b) "-redis-master" ""
          = a +:+ b) as ->.
  { rewrite replace_from_copy_char by done. f_equal.
    change ("-redis-master" +:+ b) with (String "-"%char ("redis-master" +:+ b)).
    cbn [Py.replace_from].
    assert (Py.startswith (String "-"%char ("redis-master" +:+ b)) "-redis-master"
            = true) as ->.
    { apply startswith_app. by exists b. }
    change (String.length "-redis-master" - 1)
      with (String.length "redis-master").
    rewrite replace_from_skip. simpl.
    by apply replace_from_absent, char_absent_contains. }
  by apply replace_from_absent, char_absent_contains, char_absent_app.
Qed.
End RedisPrefix.

(** C3, as the claim states it, fails: the prefix is not obtained by
    suffix stripping. An occurrence of "-master" that is not a suffix is
    removed, so a name ending in neither suffix does not yield itself. *)
Lemma redis_prefix_not_suffix_stripping :
  _fix_redis_prefix "cache-master-replica" = "cache-replica"
  ∧ Spec.redis_prefix "cache-master-replica" = "cache-master-replica"
  ∧ _fix_redis_prefix "cache-master-replica"
    ≠ Spec.redis_prefix "cache-master-replica".
Proof. by vm_compute. Qed.

(** C3, amended: the prefix is the service name with the occurrences of
    "-redis-master", then those of "-master", removed wherever they are
    ([str.replace]). For [p] free of "-master": [p] yields itself,
    [p]-redis-master yields [p], and [p]-master yields [p] unless [p]
    ends in "-redis" (then the first rule has already matched). An
    occurrence that is not a suffix is removed too: for [a] and [b] free
    of hyphens, [a]-redis-master[b] and [a]-master[b] yield [a][b]. *)
Theorem redis_prefix_removes_occurrences (p a b : string) :
  Py.contains "-master" p = false →
  Py.contains "-" a = false →
  Py.contains "-" b = false →
  _fix_redis_prefix p = p
  ∧ _fix_redis_prefix (p +:+ "-redis-master") = p
  ∧ ((∀ p', p ≠ p' +:+ "-redis") → _fix_redis_prefix (p +:+ "-master") = p)
  ∧ _fix_redis_prefix (a +:+ "-redis-master" +:+ b) = a +:+ b
  ∧ _fix_redis_prefix (a +:+ "-master" +:+ b) = a +:+ b.
Proof.
  intros Hp Ha Hb. split_and!.
  - by apply redis_prefix_absent.
  - by apply redis_prefix_redis_master.
  - by apply redis_prefix_master.
  - by apply redis_prefix_inner_redis_master.
  - by apply redis_prefix_inner_master.
Qed.

Lemma redis_prefix_removes_occurrences_witness :
  _fix_redis_prefix "cache" = "cache"
  ∧ _fix_redis_prefix "cache-redis-master" = "cache"
  ∧ _fix_redis_prefix "cache-master" = "cache"
  ∧ _fix_redis_prefix "eu-redis-master1" = "eu1"
  ∧ _fix_redis_prefix "eu-master1" = "eu1".
Proof.
  destruct (redis_prefix_removes_occurrences "cache" "eu" "1")
    as (H1 & H2 & H3 & H4 & H5); [reflexivity..|].
  split_and!; [exact H1 | exact H2 | | exact H4 | exact H5].
  apply H3. intros p' E. apply (f_equal String.length) in E.
  rewrite length_app_str in E. simpl in E. lia.
Defined.

(** ** Secret lookup *)

Section SecretLookup.
Context `{dec : Base64Decoder}.
Implicit Types (sec : secret) (key val text : string).

(** The plaintext entry, an absent sub-mapping having none. *)
Lemma secret_value_plain sec key val :
  stringData sec ≫= (.!! key) = Some val → _secret_value sec key = Some val.
Proof.
  unfold _secret_value. destruct (stringData sec) as [m|]; simpl.
  - by intros ->.
  - done.
Qed.

Lemma plain_absent sec key :
  stringData sec ≫= (.!! key) = None →
  default ∅ (stringData sec) !! key = None.
Proof. destruct (stringData sec); simpl; [done|]. by rewrite lookup_empty. Qed.

Lemma encoded_absent sec key :
  data sec ≫= (.!! key) = None → default ∅ (data sec) !! key = None.
Proof. destruct (data sec); simpl; [done|]. by rewrite lookup_empty. Qed.

Lemma encoded_present sec key val :
  data sec ≫= (.!! key) = Some val → default ∅ (data sec) !! key = Some val.
Proof. destruct (data sec); simpl; done. Qed.

(** A manifest without keys holds no value. *)
Lemma secret_value_falsy sec key :
  secret_truthy sec = false → _secret_value sec key = None.
Proof.
  unfold secret_truthy, _secret_value.
  destruct (stringData sec), (data sec); done.
Qed.
End SecretLookup.

Example python_decoder_ex1 : Python.decoder "czNjcmV0" = Some "s3cret".
Proof. reflexivity. Qed.
Example python_decoder_ex2 : Python.decoder "YQ==" = Some "a".
Proof. reflexivity. Qed.
Example python_decoder_ex3 : Python.decoder "YQ" = None.
Proof. reflexivity. Qed.
Example python_decoder_ex4 : Python.decoder "/w==" = None.
Proof. reflexivity. Qed.
Example python_decoder_ex5 : Python.decoder "!!!" = Some "".
Proof. reflexivity. Qed.
Example well_formed_ex1 : Base64.well_formed "czNjcmV0" = true.
Proof. reflexivity. Qed.
Example well_formed_ex2 : Base64.well_formed "YQ==" = true.
Proof. reflexivity. Qed.
Example well_formed_ex3 : Base64.well_formed "not base64!" = false.
Proof. reflexivity. Qed.

(** ** Python's decoder *)

Section PythonDecoder.
Implicit Types (s : string) (q pads : nat) (leftchar : N) (out : list N).

(** Input without padding that ends inside a group of four is rejected. *)
Lemma loop_incomplete s : ∀ q leftchar pads out,
  q < 4 →
  Py.contains "=" s = false →
  (q + Python.alphabet_count s) mod 4 ≠ 0 →
  Python.a2b_base64_loop s q leftchar pads out = None.
Proof.
  induction s as [|c s IH]; intros q leftchar pads out Hq Hpad Hmod.
  - cbn [Python.alphabet_count] in Hmod. rewrite Nat.add_0_r in Hmod.
    rewrite Nat.mod_small in Hmod by done. by destruct q.
  - apply contains_cons_false in Hpad as [Hc Hpad].
    cbn [Python.a2b_base64_loop]. cbn [Py.startswith] in Hc.
    destruct (Ascii.eqb_spec c "=") as [->|_].
    { by rewrite Ascii.eqb_refl in Hc. }
    cbn [Python.alphabet_count] in Hmod.
    destruct (Python.b64_value c) as [this_ch|]; [|by apply IH].
    destruct q as [|[|[|[|q]]]]; [..|lia]; apply IH; try lia; try done.
    intros Hz. apply Hmod.
    replace (3 + S (Python.alphabet_count s))
      with (0 + Python.alphabet_count s + 1 * 4) by lia.
    by rewrite Nat.Div0.mod_add.
Qed.

Lemma python_decoder_incomplete s :
  Py.contains "=" s = false →
  Python.alphabet_count s mod 4 ≠ 0 →
  Python.decoder s = None.
Proof.
  intros Hpad Hmod. unfold Python.decoder, Python.b64decode.
  destruct (Python.is_ascii s); [|done].
  rewrite loop_incomplete; [done | lia | done | done].
Qed.
End PythonDecoder.

(** C4, as the claim states it, fails: a value under [data] that is not a
    base64 string is not always returned as it is. Python's decoder
    skips the characters outside the alphabet, so "czNjcmV0!" decodes to
    "s3cret". *)
Lemma non_base64_value_is_decoded :
  Base64.well_formed "czNjcmV0!" = false
  ∧ _secret_value (dec := Python.decoder)
      (Secret None (Some {[ "redis-password" := "czNjcmV0!" ]}) true)
      "redis-password" = Some "s3cret"
  ∧ _secret_value (dec := Python.decoder)
      (Secret None (Some {[ "redis-password" := "czNjcmV0!" ]}) true)
      "redis-password" ≠ Some "czNjcmV0!".
Proof. by vm_compute. Qed.

(** C4, amended: [_secret_value] consults the plaintext sub-mapping
    first; absent there, it consults the base64 sub-mapping and decodes
    the entry to text; whenever the decoding fails the call does not
    raise and the encoded string itself is the result, unchanged; with
    the key in neither sub-mapping the result is absent. A value that is
    not a base64 string is returned unchanged when its decoding fails,
    which Python's decoder does in particular for a value without "="
    whose number of alphabet characters is not a multiple of four. The
    function is total: no case raises. *)
Theorem secret_value_lookup `{dec : Base64Decoder} (sec : secret) (key : string) :
  (∀ val, stringData sec ≫= (.!! key) = Some val →
     _secret_value sec key = Some val)
  ∧ (∀ val text, stringData sec ≫= (.!! key) = None →
       data sec ≫= (.!! key) = Some val → b64decode_utf8 val = Some text →
       _secret_value sec key = Some text)
  ∧ (∀ val, stringData sec ≫= (.!! key) = None →
       data sec ≫= (.!! key) = Some val → b64decode_utf8 val = None →
       _secret_value sec key = Some val)
  ∧ (stringData sec ≫= (.!! key) = None → data sec ≫= (.!! key) = None →
       _secret_value sec key = None)
  ∧ (∀ val, stringData sec ≫= (.!! key) = None →
       data sec ≫= (.!! key) = Some val →
       Py.contains "=" val = false →
       Python.alphabet_count val mod 4 ≠ 0 →
       _secret_value (dec := Python.decoder) sec key = Some val).
Proof.
  split_and!.
  - apply secret_value_plain.
  - intros val text Hp Hd Hdec. unfold _secret_value.
    by rewrite (plain_absent _ _ Hp), (encoded_present _ _ _ Hd), Hdec.
  - intros val Hp Hd Hdec. unfold _secret_value.
    by rewrite (plain_absent _ _ Hp), (encoded_present _ _ _ Hd), Hdec.
  - intros Hp Hd. unfold _secret_value.
    by rewrite (plain_absent _ _ Hp), (encoded_absent _ _ Hd).
  - intros val Hp Hd Hpad Hmod. unfold _secret_value.
    rewrite (plain_absent _ _ Hp), (encoded_present _ _ _ Hd).
    unfold b64decode_utf8. by rewrite python_decoder_incomplete.
Qed.

Lemma secret_value_lookup_witness :
  _secret_value (dec := Python.decoder)
    (Secret (Some {[ "k" := "plain" ]}) (Some {[ "k" := "czNjcmV0" ]}) true)
    "k" = Some "plain"
  ∧ _secret_value (dec := Python.decoder)
      (Secret None (Some {[ "k" := "czNjcmV0" ]}) true) "k" = Some "s3cret"
  ∧ _secret_value (dec := Python.decoder)
      (Secret (Some ∅) (Some {[ "k" := "/w==" ]}) true) "k" = Some "/w=="
  ∧ _secret_value (dec := Python.decoder)
      (Secret None (Some {[ "other" := "czNjcmV0" ]}) true) "k" = None
  ∧ _secret_value (dec := Python.decoder)
      (Secret None (Some {[ "k" := "not base64!" ]}) true) "k"
    = Some "not base64!".
Proof.
  split_and!.
  - destruct (secret_value_lookup (dec := Python.decoder)
                (Secret (Some {[ "k" := "plain" ]})
                        (Some {[ "k" := "czNjcmV0" ]}) true) "k")
      as (Hplain & _).
    apply Hplain. reflexivity.
  - destruct (secret_value_lookup (dec := Python.decoder)
                (Secret None (Some {[ "k" := "czNjcmV0" ]}) true) "k")
      as (_ & Hdecoded & _).
    apply (Hdecoded "czNjcmV0"); reflexivity.
  - destruct (secret_value_lookup (dec := Python.decoder)
                (Secret (Some ∅) (Some {[ "k" := "/w==" ]}) true) "k")
      as (_ & _ & Hraw & _).
    apply (Hraw "/w=="); reflexivity.
  - destruct (secret_value_lookup (dec := Python.decoder)
                (Secret None (Some {[ "other" := "czNjcmV0" ]}) true) "k")
      as (_ & _ & _ & Habsent & _).
    apply Habsent; reflexivity.
  - destruct (secret_value_lookup (dec := Python.decoder)
                (Secret None (Some {[ "k" := "not base64!" ]}) true) "k")
      as (_ & _ & _ & _ & Hincomplete).
    apply Hincomplete; [reflexivity | reflexivity | reflexivity |].
    vm_compute. discriminate.
Defined.

(** ** Secret resolution *)

Lemma find_secret_some (store : gmap string secret) (candidates : list string)
    (name : string) (s : secret) :
  _find_secret store candidates = Some (name, s) ↔
  ∃ before after, candidates = before ++ name :: after
    ∧ (∀ c, c ∈ before → store !! c = None) ∧ store !! name = Some s.
Proof.
  induction candidates as [|c cs IH]; simpl.
  - split; [done|]. intros (before & after & E & _). by destruct before.
  - destruct (store !! c) as [s'|] eqn:Hc.
    + split.
      * intros [= <- <-]. exists [], cs. split_and!; [done| |done].
        intros c' Hin. by apply not_elem_of_nil in Hin.
      * intros (before & after & E & Hb & Hn).
        destruct before as [|b before]; simplify_eq/=; [congruence|].
        rewrite Hb in Hc; [done|]. apply list_elem_of_here.
    + rewrite IH. split.
      * intros (before & after & -> & Hb & Hn).
        exists (c :: before), after. split_and!; [done| |done].
        intros c' [->|Hin]%elem_of_cons; auto.
      * intros (before & after & E & Hb & Hn).
        destruct before as [|b before]; simplify_eq/=.
        exists before, after. split_and!; [done| |done].
        intros c' Hin. apply Hb. by apply list_elem_of_further.
Qed.

Lemma find_secret_none (store : gmap string secret) (candidates : list string) :
  _find_secret store candidates = None ↔
  ∀ c, c ∈ candidates → store !! c = None.
Proof.
  induction candidates as [|c cs IH]; simpl.
  - split; [|done]. intros _ c Hin. by apply not_elem_of_nil in Hin.
  - destruct (store !! c) as [s'|] eqn:Hc.
    + split; [done|]. intros Hall. rewrite Hall in Hc; [done|].
      apply list_elem_of_here.
    + rewrite IH. split.
      * intros Hall c' [->|Hin]%elem_of_cons; auto.
      * intros Hall c' Hin. apply Hall. by apply list_elem_of_further.
Qed.

(** C9: [_find_secret] returns the first candidate, in list order, that
    is a key of the store, with its record, and "not found" exactly when
    no candidate is one. With Secrets "app-redis" and "app" in the store,
    the cache repair of service "app-redis-master" resolves "app-redis"
    and reads the password from that record. *)
Theorem find_secret_first_candidate `{dec : Base64Decoder}
    (store : gmap string secret) (candidates : list string) :
  (∀ name s, _find_secret store candidates = Some (name, s) ↔
     ∃ before after, candidates = before ++ name :: after
       ∧ (∀ c, c ∈ before → store !! c = None) ∧ store !! name = Some s)
  ∧ (_find_secret store candidates = None ↔
     ∀ c, c ∈ candidates → store !! c = None)
  ∧ (∀ r1 r2 cfg, store !! "app-redis" = Some r1 → store !! "app" = Some r2 →
       _find_secret store (_fix_redis_candidates "app-redis-master")
       = Some ("app-redis", r1)
       ∧ _fix_redis_password "app-redis-master" (RunContext store cfg)
         = if secret_truthy r1 then _secret_value r1 "redis-password"
           else None).
Proof.
  split_and!.
  - apply find_secret_some.
  - apply find_secret_none.
  - intros r1 r2 cfg H1 H2. unfold _fix_redis_password.
    change (_fix_redis_candidates "app-redis-master")
      with ["app-redis"; "app"; "app-redis-master"].
    simpl. by rewrite H1.
Qed.

Lemma find_secret_first_candidate_witness :
  _find_secret Sample.app_secrets ["missing"; "app"; "app-redis"]
  = Some ("app", Sample.plain {[ "redis-password" := "two" ]})
  ∧ _find_secret Sample.app_secrets ["missing"; "absent"] = None
  ∧ _find_secret Sample.app_secrets (_fix_redis_candidates "app-redis-master")
    = Some ("app-redis", Sample.plain {[ "redis-password" := "one" ]})
  ∧ _fix_redis_password (dec := Sample.decoder) "app-redis-master"
      (Sample.ctx Sample.app_secrets) = Some "one".
Proof.
  split_and!.
  - apply (find_secret_first_candidate (dec := Sample.decoder)
             Sample.app_secrets ["missing"; "app"; "app-redis"]).
    exists ["missing"], ["app-redis"]. split_and!; [done| |done].
    intros c ->%list_elem_of_singleton. reflexivity.
  - apply (find_secret_first_candidate (dec := Sample.decoder)
             Sample.app_secrets ["missing"; "absent"]).
    intros c [->|[->|[]%not_elem_of_nil]%elem_of_cons]%elem_of_cons;
      reflexivity.
  - destruct (find_secret_first_candidate (dec := Sample.decoder)
                Sample.app_secrets []) as (_ & _ & Hres).
    destruct (Hres (Sample.plain {[ "redis-password" := "one" ]})
                (Sample.plain {[ "redis-password" := "two" ]})
                (Configuration None None)) as [Hfound _]; [reflexivity..|].
    exact Hfound.
  - destruct (find_secret_first_candidate (dec := Sample.decoder)
                Sample.app_secrets []) as (_ & _ & Hres).
    destruct (Hres (Sample.plain {[ "redis-password" := "one" ]})
                (Sample.plain {[ "redis-password" := "two" ]})
                (Configuration None None)) as [_ Hpw]; [reflexivity..|].
    exact Hpw.
Defined.

(** ** Runs on a single service *)

Section SingleService.
Context `{dec : Base64Decoder}.
Implicit Types (svc : service) (ctx : context) (svc_name : string).

Lemma get_singleton svc_name svc : Dict.get [(svc_name, svc)] svc_name = Some svc.
Proof. simpl. by rewrite String.eqb_refl. Qed.

Lemma set_singleton svc_name svc svc' :
  Dict.set [(svc_name, svc)] svc_name svc' = [(svc_name, svc')].
Proof. simpl. by rewrite String.eqb_refl. Qed.

Lemma run_single_redis svc_name svc ctx :
  svc_name ∉ default ∅ (overrides (config ctx)) →
  _is_bitnami_image svc "redis" = true →
  run_transform [(svc_name, svc)] ctx
  = (Ok tt, World [(svc_name, (_fix_redis svc_name svc ctx).1)]
                  (_fix_redis svc_name svc ctx).2).
Proof.
  intros Hov Hfam.
  unfold run_transform, transform, snapshot, mbind, M_bind.
  cbn [Dict.keys fmap list_fmap compose_services fst for_each].
  unfold transform_body, mbind, M_bind, getitem.
  rewrite bool_decide_eq_false_2 by done.
  cbn [compose_services]. rewrite get_singleton, Hfam.
  destruct (_fix_redis svc_name svc ctx) as [svc' lines].
  unfold mutate, emit, mret, M_ret. cbn [compose_services stderr].
  by rewrite set_singleton.
Qed.

Lemma run_single_postgresql svc_name svc ctx :
  svc_name ∉ default ∅ (overrides (config ctx)) →
  _is_bitnami_image svc "redis" = false →
  _is_bitnami_image svc "postgresql" = true →
  run_transform [(svc_name, svc)] ctx
  = (Ok tt, World [(svc_name, (_fix_postgresql svc_name svc ctx).1)]
                  (_fix_postgresql svc_name svc ctx).2).
Proof.
  intros Hov Hred Hfam.
  unfold run_transform, transform, snapshot, mbind, M_bind.
  cbn [Dict.keys fmap list_fmap compose_services fst for_each].
  unfold transform_body, mbind, M_bind, getitem.
  rewrite bool_decide_eq_false_2 by done.
  cbn [compose_services]. rewrite get_singleton, Hred, Hfam.
  destruct (_fix_postgresql svc_name svc ctx) as [svc' lines].
  unfold mutate, emit, mret, M_ret. cbn [compose_services stderr].
  by rewrite set_singleton.
Qed.
End SingleService.

(** ** The repair routines *)

Section RepairFacts.
Context `{dec : Base64Decoder}.
Implicit Types (svc : service) (ctx : context) (svc_name key var : string).

(** A credential that resolves to nothing usable leaves the record and
    the stream alone. *)
Lemma inject_blank svc_name ctx candidates key var svc name sec :
  _find_secret (secrets ctx) candidates = Some (name, sec) →
  _secret_value sec key = Some "" ∨ secret_truthy sec = false →
  _fix_keycloak_inject svc_name ctx candidates key var svc = (svc, []).
Proof.
  intros Hfind Hblank. unfold _fix_keycloak_inject. rewrite Hfind.
  destruct (secret_truthy sec) eqn:Ht; [|done].
  destruct Hblank as [-> | ?]; done.
Qed.

(** Injecting one variable does not touch another one. *)
Lemma inject_other svc_name ctx candidates key var svc k :
  var ≠ k →
  env_lookup (_fix_keycloak_inject svc_name ctx candidates key var svc).1 k
  = env_lookup svc k.
Proof.
  intros Hne. unfold _fix_keycloak_inject.
  destruct (_find_secret _ _) as [[name sec]|]; [|done].
  destruct (secret_truthy sec); [|done].
  destruct (_secret_value sec key) as [pw|]; [|done].
  destruct (Py.truthy pw); [|done].
  unfold env_lookup. simpl. by rewrite lookup_insert_ne.
Qed.

Lemma fix_redis_blank svc_name svc ctx name sec :
  _find_secret (secrets ctx) (_fix_redis_candidates svc_name) = Some (name, sec) →
  _secret_value sec "redis-password" = Some "" ∨ secret_truthy sec = false →
  _fix_redis svc_name svc ctx
  = (Service (Some "redis:7-alpine") None (Some ["redis-server"])
       (Some [default "./data" (volume_root (config ctx)) +:+ "/"
                +:+ svc_name +:+ ":/data"])
       None (others svc),
     [ _log (svc_name +:+ ": image → redis:7-alpine");
       _log (svc_name +:+ ": removed Bitnami entrypoint");
       _log (svc_name +:+ ": ⚠ no redis-password found, running without auth");
       _log (svc_name +:+ ": volume → "
               +:+ default "./data" (volume_root (config ctx)) +:+ "/"
               +:+ svc_name +:+ ":/data");
       _log (svc_name +:+ ": removed Bitnami environment") ]).
Proof.
  intros Hfind Hblank. unfold _fix_redis, _fix_redis_password.
  rewrite Hfind.
  destruct (secret_truthy sec) eqn:Ht.
  - destruct Hblank as [-> | ?]; done.
  - done.
Qed.

Lemma fix_redis_no_secret svc_name svc cfg :
  _fix_redis svc_name svc (RunContext ∅ cfg)
  = (Service (Some "redis:7-alpine") None (Some ["redis-server"])
       (Some [default "./data" (volume_root cfg) +:+ "/"
                +:+ svc_name +:+ ":/data"])
       None (others svc),
     [ _log (svc_name +:+ ": image → redis:7-alpine");
       _log (svc_name +:+ ": removed Bitnami entrypoint");
       _log (svc_name +:+ ": ⚠ no redis-password found, running without auth");
       _log (svc_name +:+ ": volume → "
               +:+ default "./data" (volume_root cfg) +:+ "/"
               +:+ svc_name +:+ ":/data");
       _log (svc_name +:+ ": removed Bitnami environment") ]).
Proof.
  unfold _fix_redis, _fix_redis_password.
  assert (_find_secret (secrets (RunContext ∅ cfg))
            (_fix_redis_candidates svc_name) = None) as ->; [|done].
  apply find_secret_none. intros c _. apply lookup_empty.
Qed.
End RepairFacts.

(** C7: [_fix_postgresql] replaces [volumes] with exactly two entries, the
    data mount "{volume_root}/{service_name}:/bitnami/postgresql" and then
    the secrets mount
    "./secrets/{service_name}:/opt/bitnami/postgresql/secrets:ro", and
    leaves every other field of the record as it was; and the transform
    applies exactly this to a PostgreSQL-family service. *)
Theorem fix_postgresql_replaces_volumes_only `{dec : Base64Decoder}
    (svc_name : string) (svc : service) (ctx : context) :
  let volume_root := default "./data" (volume_root (config ctx)) in
  let repaired :=
    Service (image svc) (entrypoint svc) (command svc)
      (Some [ volume_root +:+ "/" +:+ svc_name +:+ ":/bitnami/postgresql";
              "./secrets/" +:+ svc_name
                +:+ ":/opt/bitnami/postgresql/secrets:ro" ])
      (environment svc) (others svc) in
  (_fix_postgresql svc_name svc ctx).1 = repaired
  ∧ (svc_name ∉ default ∅ (overrides (config ctx)) →
     _is_bitnami_image svc "redis" = false →
     _is_bitnami_image svc "postgresql" = true →
     ∃ lines,
       run_transform [(svc_name, svc)] ctx
       = (Ok tt, World [(svc_name, repaired)] lines)).
Proof.
  intros volume_root repaired. split; [done|].
  intros Hov Hred Hfam. eexists.
  by rewrite run_single_postgresql.
Qed.

Lemma fix_postgresql_replaces_volumes_only_witness :
  run_transform (dec := Sample.decoder)
    [("db-postgresql", Sample.svc "bitnami/postgresql:16")] (Sample.ctx ∅)
  = (Ok tt,
     World [("db-postgresql",
             Service (Some "bitnami/postgresql:16") None None
               (Some [ "./data/db-postgresql:/bitnami/postgresql";
                       "./secrets/db-postgresql:/opt/bitnami/postgresql/secrets:ro" ])
               None ∅)]
       [ "  [bitnami] db-postgresql: data volume → /bitnami/postgresql";
         "  [bitnami] db-postgresql: secrets mount → /opt/bitnami/postgresql/secrets" ]).
Proof.
  destruct (fix_postgresql_replaces_volumes_only (dec := Sample.decoder)
              "db-postgresql" (Sample.svc "bitnami/postgresql:16")
              (Sample.ctx ∅)) as [_ Hrun].
  destruct Hrun as [lines Hrun];
    [apply not_elem_of_empty | reflexivity | reflexivity |].
  rewrite Hrun. f_equal. f_equal.
  assert (stderr (run_transform (dec := Sample.decoder)
                    [("db-postgresql", Sample.svc "bitnami/postgresql:16")]
                    (Sample.ctx ∅)).2 = lines) as <- by (by rewrite Hrun).
  reflexivity.
Defined.

(** C5: with the Service Set holding service "cache-redis-master" of image
    "bitnami/redis:7.2", a Secret "cache-redis" whose stringData has
    "redis-password" = "s3cret", and the default configuration, the
    transform completes and leaves that service with image
    "redis:7-alpine", no entrypoint, command
    ["redis-server", "--requirepass", "s3cret"], volumes
    ["./data/cache-redis-master:/data"] and no environment. *)
Theorem cache_repair_end_to_end `{dec : Base64Decoder}
    (svc : service) (store : gmap string secret) (sec : secret)
    (plain : gmap string string) :
  image svc = Some "bitnami/redis:7.2" →
  store !! "cache-redis" = Some sec →
  stringData sec = Some plain →
  plain !! "redis-password" = Some "s3cret" →
  run_transform [("cache-redis-master", svc)] (Sample.ctx store)
  = (Ok tt,
     World [("cache-redis-master",
             Service (Some "redis:7-alpine") None
               (Some ["redis-server"; "--requirepass"; "s3cret"])
               (Some ["./data/cache-redis-master:/data"])
               None (others svc))]
       [ "  [bitnami] cache-redis-master: image → redis:7-alpine";
         "  [bitnami] cache-redis-master: removed Bitnami entrypoint";
         "  [bitnami] cache-redis-master: password set from Secret 'cache-redis'";
         "  [bitnami] cache-redis-master: volume → ./data/cache-redis-master:/data";
         "  [bitnami] cache-redis-master: removed Bitnami environment" ]).
Proof.
  intros Himg Hstore Hsd Hpw.
  rewrite run_single_redis.
  - unfold _fix_redis, _fix_redis_password.
    change (_fix_redis_candidates "cache-redis-master")
      with ["cache-redis"; "cache"; "cache-redis-master"].
    cbn [_find_secret secrets Sample.ctx]. rewrite Hstore.
    assert (secret_truthy sec = true) as ->
      by (unfold secret_truthy; by rewrite Hsd).
    rewrite (secret_value_plain sec "redis-password" "s3cret")
      by (by rewrite Hsd).
    reflexivity.
  - apply not_elem_of_empty.
  - unfold _is_bitnami_image. rewrite Himg. reflexivity.
Qed.

Lemma cache_repair_end_to_end_witness :
  run_transform (dec := Sample.decoder)
    [("cache-redis-master", Sample.svc "bitnami/redis:7.2")]
    (Sample.ctx Sample.cache_secrets)
  = (Ok tt,
     World [("cache-redis-master",
             Service (Some "redis:7-alpine") None
               (Some ["redis-server"; "--requirepass"; "s3cret"])
               (Some ["./data/cache-redis-master:/data"])
               None ∅)]
       [ "  [bitnami] cache-redis-master: image → redis:7-alpine";
         "  [bitnami] cache-redis-master: removed Bitnami entrypoint";
         "  [bitnami] cache-redis-master: password set from Secret 'cache-redis'";
         "  [bitnami] cache-redis-master: volume → ./data/cache-redis-master:/data";
         "  [bitnami] cache-redis-master: removed Bitnami environment" ]).
Proof.
  apply (cache_repair_end_to_end (dec := Sample.decoder)
           (Sample.svc "bitnami/redis:7.2") Sample.cache_secrets
           (Sample.plain {[ "redis-password" := "s3cret" ]})
           {[ "redis-password" := "s3cret" ]}); reflexivity.
Defined.

(** C10: a resolved Secret whose value for the key is the empty string,
    or whose record is an empty mapping, counts as no value. The cache
    repair then does exactly what it does without any Secret: the command
    is ["redis-server"], with no --requirepass, and the no-password
    warning is logged. The identity repair then sets neither
    KC_BOOTSTRAP_ADMIN_PASSWORD nor KC_DB_PASSWORD: the variable is what
    it was in the record before the repair. *)
Theorem blank_secret_counts_as_absent `{dec : Base64Decoder}
    (svc_name : string) (svc : service) (ctx : context) :
  (∀ name sec,
     _find_secret (secrets ctx) (_fix_redis_candidates svc_name)
     = Some (name, sec) →
     _secret_value sec "redis-password" = Some "" ∨ secret_truthy sec = false →
     _fix_redis svc_name svc ctx
     = _fix_redis svc_name svc (RunContext ∅ (config ctx))
     ∧ command (_fix_redis svc_name svc ctx).1 = Some ["redis-server"]
     ∧ _log (svc_name +:+ ": ⚠ no redis-password found, running without auth")
       ∈ (_fix_redis svc_name svc ctx).2)
  ∧ (∀ name sec,
       _find_secret (secrets ctx) (_fix_keycloak_sec_candidates svc_name)
       = Some (name, sec) →
       _secret_value sec "admin-password" = Some "" ∨ secret_truthy sec = false →
       env_lookup (_fix_keycloak svc_name svc ctx).1 "KC_BOOTSTRAP_ADMIN_PASSWORD"
       = env_lookup svc "KC_BOOTSTRAP_ADMIN_PASSWORD")
  ∧ (∀ name sec,
       _find_secret (secrets ctx) (_fix_keycloak_db_candidates svc_name)
       = Some (name, sec) →
       _secret_value sec "password" = Some "" ∨ secret_truthy sec = false →
       env_lookup (_fix_keycloak svc_name svc ctx).1 "KC_DB_PASSWORD"
       = env_lookup svc "KC_DB_PASSWORD").
Proof.
  split_and!.
  - intros name sec Hfind Hblank.
    pose proof (fix_redis_blank _ svc _ _ _ Hfind Hblank) as Hrun.
    rewrite Hrun, fix_redis_no_secret.
    split_and!; [done..|]. cbn [snd].
    do 2 apply list_elem_of_further. apply list_elem_of_here.
  - intros name sec Hfind Hblank. unfold _fix_keycloak.
    rewrite (inject_blank _ _ _ _ _ _ _ _ Hfind Hblank).
    destruct (_fix_keycloak_inject svc_name ctx
                (_fix_keycloak_db_candidates svc_name) "password"
                "KC_DB_PASSWORD" svc) as [svc2 l2] eqn:E.
    cbn [fst]. change svc2 with (svc2, l2).1. rewrite <- E.
    by apply inject_other.
  - intros name sec Hfind Hblank. unfold _fix_keycloak.
    destruct (_fix_keycloak_inject svc_name ctx
                (_fix_keycloak_sec_candidates svc_name) "admin-password"
                "KC_BOOTSTRAP_ADMIN_PASSWORD" svc) as [svc1 l1] eqn:E.
    rewrite (inject_blank _ _ _ _ _ _ _ _ Hfind Hblank).
    cbn [fst]. change svc1 with (svc1, l1).1. rewrite <- E.
    by apply inject_other.
Qed.

Lemma blank_secret_counts_as_absent_witness :
  (command (_fix_redis (dec := Sample.decoder) "cache-redis-master"
              (Sample.svc "bitnami/redis:7.2")
              (Sample.ctx Sample.blank_secrets)).1 = Some ["redis-server"]
   ∧ "  [bitnami] cache-redis-master: ⚠ no redis-password found, running without auth"
     ∈ (_fix_redis (dec := Sample.decoder) "cache-redis-master"
          (Sample.svc "bitnami/redis:7.2")
          (Sample.ctx Sample.blank_secrets)).2)
  ∧ env_lookup (_fix_keycloak (dec := Sample.decoder) "auth-keycloak"
                  Sample.keycloak (Sample.ctx Sample.blank_secrets)).1
      "KC_BOOTSTRAP_ADMIN_PASSWORD" = None
  ∧ env_lookup (_fix_keycloak (dec := Sample.decoder) "auth-keycloak"
                  Sample.keycloak (Sample.ctx Sample.blank_secrets)).1
      "KC_DB_PASSWORD" = None.
Proof.
  split_and!.
  - destruct (blank_secret_counts_as_absent (dec := Sample.decoder)
                "cache-redis-master" (Sample.svc "bitnami/redis:7.2")
                (Sample.ctx Sample.blank_secrets)) as (Hredis & _).
    destruct (Hredis "cache-redis" (Sample.plain {[ "redis-password" := "" ]}))
      as (_ & Hcmd & _); [reflexivity | left; reflexivity |].
    exact Hcmd.
  - destruct (blank_secret_counts_as_absent (dec := Sample.decoder)
                "cache-redis-master" (Sample.svc "bitnami/redis:7.2")
                (Sample.ctx Sample.blank_secrets)) as (Hredis & _).
    destruct (Hredis "cache-redis" (Sample.plain {[ "redis-password" := "" ]}))
      as (_ & _ & Hwarn); [reflexivity | left; reflexivity |].
    exact Hwarn.
  - destruct (blank_secret_counts_as_absent (dec := Sample.decoder)
                "auth-keycloak" Sample.keycloak
                (Sample.ctx Sample.blank_secrets)) as (_ & Hadmin & _).
    rewrite (Hadmin "auth-keycloak" (Secret None None false));
      [reflexivity | reflexivity | right; reflexivity].
  - destruct (blank_secret_counts_as_absent (dec := Sample.decoder)
                "auth-keycloak" Sample.keycloak
                (Sample.ctx Sample.blank_secrets)) as (_ & _ & Hdb).
    rewrite (Hdb "keycloak-postgresql"
               (Secret None (Some {[ "password" := "" ]}) true));
      [reflexivity | reflexivity | left; reflexivity].
Defined.

(** ** Facts about insertion-ordered dictionaries *)

Section DictFacts.
Context {V : Type}.
Implicit Types (d : list (string * V)) (k : string) (v : V).

Lemma keys_cons d k v : Dict.keys ((k, v) :: d) = k :: Dict.keys d.
Proof. reflexivity. Qed.

Lemma get_none_not_key d k : Dict.get d k = None ↔ k ∉ Dict.keys d.
Proof.
  induction d as [|[k' v'] d IH]; cbn [Dict.get].
  - split; [intros _; apply not_elem_of_nil | done].
  - rewrite keys_cons, not_elem_of_cons, <- IH.
    destruct (String.eqb_spec k' k) as [->|Hne].
    + split; [done | by intros [? _]].
    + split; [intros ?; split; [congruence | done] | by intros [_ ?]].
Qed.

Lemma get_some_key d k v : Dict.get d k = Some v → k ∈ Dict.keys d.
Proof.
  intros Hget. destruct (decide (k ∈ Dict.keys d)) as [|Hno]; [done|].
  apply get_none_not_key in Hno. congruence.
Qed.

Lemma get_set_other d k k' v :
  k ≠ k' → Dict.get (Dict.set d k v) k' = Dict.get d k'.
Proof.
  intros Hne. induction d as [|[k0 v0] d IH]; cbn [Dict.get Dict.set Dict.remove].
  - by destruct (String.eqb_spec k k').
  - destruct (String.eqb_spec k0 k) as [->|]; cbn [Dict.get Dict.set Dict.remove].
    + by destruct (String.eqb_spec k k').
    + by rewrite IH.
Qed.

Lemma keys_set_present d k v :
  k ∈ Dict.keys d → Dict.keys (Dict.set d k v) = Dict.keys d.
Proof.
  induction d as [|[k0 v0] d IH]; cbn [Dict.get Dict.set Dict.remove].
  - by intros ?%not_elem_of_nil.
  - destruct (String.eqb_spec k0 k) as [->|Hne]; [done|].
    rewrite !keys_cons. intros [->|Hin]%elem_of_cons; [done|].
    by rewrite IH.
Qed.

Lemma get_remove_other d k k' :
  k ≠ k' → Dict.get (Dict.remove d k) k' = Dict.get d k'.
Proof.
  intros Hne. induction d as [|[k0 v0] d IH]; cbn [Dict.get Dict.set Dict.remove]; [done|].
  destruct (String.eqb_spec k0 k) as [->|]; cbn [Dict.get Dict.set Dict.remove].
  - by destruct (String.eqb_spec k k').
  - by rewrite IH.
Qed.

Lemma keys_remove_subset d k k' :
  k' ∈ Dict.keys (Dict.remove d k) → k' ∈ Dict.keys d.
Proof.
  induction d as [|[k0 v0] d IH]; cbn [Dict.get Dict.set Dict.remove]; [done|].
  destruct (String.eqb_spec k0 k) as [->|].
  - rewrite keys_cons. apply list_elem_of_further.
  - rewrite !keys_cons.
    intros [->|Hin]%elem_of_cons; [apply list_elem_of_here|].
    apply list_elem_of_further. auto.
Qed.

Lemma keys_remove_nodup d k :
  NoDup (Dict.keys d) → NoDup (Dict.keys (Dict.remove d k)).
Proof.
  induction d as [|[k0 v0] d IH]; cbn [Dict.get Dict.set Dict.remove]; [done|].
  rewrite keys_cons. intros [Hk0 Hd]%NoDup_cons.
  destruct (String.eqb_spec k0 k) as [->|]; [done|].
  rewrite keys_cons. apply NoDup_cons. split; [|auto].
  intros Hin. apply Hk0. by apply keys_remove_subset in Hin.
Qed.

Lemma get_remove_same d k :
  NoDup (Dict.keys d) → Dict.get (Dict.remove d k) k = None.
Proof.
  induction d as [|[k0 v0] d IH]; cbn [Dict.get Dict.set Dict.remove]; [done|].
  rewrite keys_cons. intros [Hk0 Hd]%NoDup_cons.
  destruct (String.eqb_spec k0 k) as [->|Hne].
  - by apply get_none_not_key.
  - cbn [Dict.get]. destruct (String.eqb_spec k0 k); [done|]. auto.
Qed.
End DictFacts.

(** ** Entries the loop does not repair *)

Lemma for_each_keeps {A : Type} (I : world → Prop) (xs : list A)
    (body : A → M unit) :
  (∀ x, x ∈ xs → ∀ w, I w → I (body x w).2) →
  ∀ w, I w → I (for_each xs body w).2.
Proof.
  induction xs as [|x xs IH]; intros Hbody w Hw; [done|].
  cbn [for_each]. unfold mbind, M_bind.
  pose proof (Hbody x (list_elem_of_here _ _) w Hw) as Hstep.
  destruct (body x w) as [[[]|e] w']; [|done].
  apply IH; [|done].
  intros y Hy. apply Hbody. by apply list_elem_of_further.
Qed.

Section Untouched.
Context `{dec : Base64Decoder}.
Variables (ctx : context) (names : list string) (ov : gset string).
Variables (name : string) (svc : service).
Hypothesis passed_over : name ∈ ov ∨ unmatched svc = true.

#[local] Abbreviation kept := (kept_or_companion names ov name svc).

Lemma emit_keeps lines w : kept w → kept (emit lines w).2.
Proof. done. Qed.

Lemma mutate_keeps svc_name svc' w :
  svc_name ≠ name → svc_name ∈ Dict.keys (compose_services w) →
  kept w → kept (mutate svc_name svc' w).2.
Proof.
  intros Hne Hin [Hnodup Hentry]. unfold kept_or_companion, mutate.
  cbn [snd compose_services].
  by rewrite keys_set_present, get_set_other.
Qed.

Lemma delitem_keeps kc n w :
  kc ∈ names → kc ∉ ov → is_keycloak_init kc n = true →
  kept w → kept (delitem n w).2.
Proof.
  intros Hkc Hov Hinit [Hnodup Hentry]. unfold delitem, Dict.del.
  destruct (Dict.get (compose_services w) n); [|done].
  split; cbn [snd compose_services]; [by apply keys_remove_nodup|].
  destruct (decide (n = name)) as [->|Hne].
  - right. split; [by apply get_remove_same | by exists kc].
  - by rewrite get_remove_other.
Qed.

Lemma fix_keycloak_init_keeps kc w :
  kc ∈ names → kc ∉ ov → kept w → kept (_fix_keycloak_init kc w).2.
Proof.
  intros Hkc Hov Hw. unfold _fix_keycloak_init, snapshot.
  unfold mbind at 1, M_bind at 1.
  apply for_each_keeps; [|done].
  intros n Hn w' Hw'. apply list_elem_of_In, filter_In in Hn as [_ Hn].
  unfold mbind, M_bind.
  pose proof (delitem_keeps kc n w' Hkc Hov Hn Hw') as Hdel.
  destruct (delitem n w') as [[[]|e] w'']; [|done].
  by apply emit_keeps.
Qed.

(** A name that is looked up and repaired is not [name]. *)
Lemma repaired_is_other svc_name cur w :
  svc_name ∉ ov → kept w →
  Dict.get (compose_services w) svc_name = Some cur →
  unmatched cur = false → svc_name ≠ name.
Proof.
  intros Hov [_ Hentry] Hget Hfam ->.
  destruct Hentry as [Hsame|[Hgone _]]; [|congruence].
  destruct passed_over as [|Hun]; [done|]. congruence.
Qed.

Lemma transform_body_keeps svc_name w :
  svc_name ∈ names → kept w → kept (transform_body ctx ov svc_name w).2.
Proof.
  intros Hin Hw. unfold transform_body.
  case_bool_decide as Hov; [done|].
  unfold mbind at 1, M_bind at 1, getitem.
  destruct (Dict.get (compose_services w) svc_name) as [cur|] eqn:Hget;
    [|done].
  pose proof (get_some_key _ _ _ Hget) as Hkey.
  pose proof (repaired_is_other svc_name cur w Hov Hw Hget) as Hother.
  unfold unmatched in Hother.
  destruct (_is_bitnami_image cur "redis").
  { destruct (_fix_redis svc_name cur ctx) as [svc' lines].
    unfold mbind, M_bind. cbn [mutate].
    apply (mutate_keeps svc_name svc'); auto. }
  destruct (_is_bitnami_image cur "postgresql").
  { destruct (_fix_postgresql svc_name cur ctx) as [svc' lines].
    unfold mbind, M_bind. cbn [mutate].
    apply (mutate_keeps svc_name svc'); auto. }
  destruct (_is_bitnami_image cur "keycloak"); [|done].
  destruct (_fix_keycloak svc_name cur ctx) as [svc' lines].
  unfold mbind at 1 2, M_bind at 1 2. cbn [mutate emit].
  apply fix_keycloak_init_keeps; [done..|].
  apply (emit_keeps lines), (mutate_keeps svc_name svc'); auto.
Qed.
End Untouched.

(** ** A Keycloak-family service and its companion *)

Section Companion.
Context `{dec : Base64Decoder}.
Variable ctx : context.
Variables (kc_name init_name : string) (kc init : service).
#[local] Abbreviation ov := (default ∅ (overrides (config ctx))).
Hypothesis kc_not_overridden : kc_name ∉ ov.
Hypothesis distinct : kc_name ≠ init_name.
Hypothesis kc_not_redis : _is_bitnami_image kc "redis" = false.
Hypothesis kc_not_postgresql : _is_bitnami_image kc "postgresql" = false.
Hypothesis kc_keycloak : _is_bitnami_image kc "keycloak" = true.
Hypothesis companion : is_keycloak_init kc_name init_name = true.
Hypothesis not_own_companion : is_keycloak_init kc_name kc_name = false.

Lemma eqb_distinct : String.eqb kc_name init_name = false.
Proof. by apply String.eqb_neq. Qed.

Lemma eqb_distinct_sym : String.eqb init_name kc_name = false.
Proof. by apply String.eqb_neq. Qed.

Lemma body_keycloak_first log :
  transform_body ctx ov kc_name (World [(kc_name, kc); (init_name, init)] log)
  = (Ok tt,
     World [(kc_name, (_fix_keycloak kc_name kc ctx).1)]
       (log ++ (_fix_keycloak kc_name kc ctx).2
            ++ [_log (init_name +:+ ": removed (emptyDir copy fails in compose)")])).
Proof.
  unfold transform_body. rewrite bool_decide_eq_false_2 by done.
  unfold mbind at 1, M_bind at 1, getitem. cbn [compose_services Dict.get].
  rewrite String.eqb_refl, kc_not_redis, kc_not_postgresql, kc_keycloak.
  destruct (_fix_keycloak kc_name kc ctx) as [svc' lines].
  unfold _fix_keycloak_init, snapshot, mutate, emit, mbind, M_bind.
  cbn [compose_services stderr Dict.set Dict.keys fmap list_fmap fst].
  rewrite String.eqb_refl.
  cbn [compose_services stderr Dict.set Dict.keys fmap list_fmap fst List.filter].
  rewrite companion, not_own_companion.
  cbn [for_each]. unfold delitem, Dict.del, emit, mbind, M_bind, mret, M_ret.
  cbn [compose_services stderr Dict.get Dict.remove].
  rewrite eqb_distinct, !String.eqb_refl.
  cbn [compose_services stderr Dict.get Dict.remove fst snd].
  by rewrite <- app_assoc.
Qed.

Lemma body_keycloak_second log :
  transform_body ctx ov kc_name (World [(init_name, init); (kc_name, kc)] log)
  = (Ok tt,
     World [(kc_name, (_fix_keycloak kc_name kc ctx).1)]
       (log ++ (_fix_keycloak kc_name kc ctx).2
            ++ [_log (init_name +:+ ": removed (emptyDir copy fails in compose)")])).
Proof.
  unfold transform_body. rewrite bool_decide_eq_false_2 by done.
  unfold mbind at 1, M_bind at 1, getitem. cbn [compose_services Dict.get].
  rewrite eqb_distinct_sym, String.eqb_refl, kc_not_redis, kc_not_postgresql, kc_keycloak.
  destruct (_fix_keycloak kc_name kc ctx) as [svc' lines].
  unfold _fix_keycloak_init, snapshot, mutate, emit, mbind, M_bind.
  cbn [compose_services stderr Dict.set Dict.keys fmap list_fmap fst].
  rewrite eqb_distinct_sym, String.eqb_refl.
  cbn [compose_services stderr Dict.set Dict.keys fmap list_fmap fst List.filter].
  rewrite companion, not_own_companion.
  cbn [for_each]. unfold delitem, Dict.del, emit, mbind, M_bind, mret, M_ret.
  cbn [compose_services stderr Dict.get Dict.remove].
  rewrite !String.eqb_refl.
  cbn [compose_services stderr Dict.get Dict.remove fst snd].
  by rewrite <- app_assoc.
Qed.

(** The Keycloak-family service first: the loop reaches the name of the
    companion after [_fix_keycloak_init] has deleted it. *)
Lemma run_keycloak_first :
  run_transform [(kc_name, kc); (init_name, init)] ctx
  = (if bool_decide (init_name ∈ ov) then Ok tt
     else Raise (KeyError init_name),
     World [(kc_name, (_fix_keycloak kc_name kc ctx).1)]
       ((_fix_keycloak kc_name kc ctx).2
          ++ [_log (init_name +:+ ": removed (emptyDir copy fails in compose)")])).
Proof.
  unfold run_transform, transform, snapshot. unfold mbind at 1, M_bind at 1.
  cbn [compose_services Dict.keys fmap list_fmap fst for_each].
  unfold mbind at 1, M_bind at 1. rewrite body_keycloak_first.
  unfold mbind, M_bind, transform_body.
  case_bool_decide; [done|].
  unfold mbind, M_bind, getitem. cbn [compose_services Dict.get].
  by rewrite eqb_distinct.
Qed.

(** The companion first: its name is passed before it is deleted. *)
Lemma run_init_first :
  init_name ∈ ov ∨ unmatched init = true →
  run_transform [(init_name, init); (kc_name, kc)] ctx
  = (Ok tt,
     World [(kc_name, (_fix_keycloak kc_name kc ctx).1)]
       ((_fix_keycloak kc_name kc ctx).2
          ++ [_log (init_name +:+ ": removed (emptyDir copy fails in compose)")])).
Proof.
  intros Hinit.
  unfold run_transform, transform, snapshot. unfold mbind at 1, M_bind at 1.
  cbn [compose_services Dict.keys fmap list_fmap fst for_each].
  assert (transform_body ctx ov init_name
            (World [(init_name, init); (kc_name, kc)] [])
          = (Ok tt, World [(init_name, init); (kc_name, kc)] [])) as Hpass.
  { unfold transform_body. case_bool_decide as Hov; [done|].
    destruct Hinit as [|Hun]; [done|].
    unfold mbind, M_bind, getitem. cbn [compose_services Dict.get].
    rewrite String.eqb_refl. unfold unmatched in Hun.
    apply andb_true_iff in Hun as [[H1 H2]%andb_true_iff H3].
    apply negb_true_iff in H1, H2, H3. by rewrite H1, H2, H3. }
  unfold mbind at 1, M_bind at 1. rewrite Hpass.
  unfold mbind at 1, M_bind at 1. by rewrite body_keycloak_second.
Qed.
End Companion.

(** ** The entry routine on whole Service Sets *)

Lemma run_transform_keeps `{dec : Base64Decoder}
    (cs : list (string * service)) (ctx : context) (name : string)
    (svc : service) :
  NoDup (Dict.keys cs) →
  Dict.get cs name = Some svc →
  name ∈ default ∅ (overrides (config ctx)) ∨ unmatched svc = true →
  kept_or_companion (Dict.keys cs) (default ∅ (overrides (config ctx)))
    name svc (run_transform cs ctx).2.
Proof.
  intros Hnodup Hget Hpass.
  unfold run_transform, transform, snapshot. unfold mbind at 1, M_bind at 1.
  cbn [compose_services].
  apply for_each_keeps.
  - intros svc_name Hin w Hw. by apply transform_body_keeps.
  - split; [done | by left].
Qed.

(** An overridden service is never mutated: whether the run completes or
    raises, it has its record, unless the removal of Keycloak companions
    has deleted it. *)
Lemma overridden_service_never_mutated `{dec : Base64Decoder}
    (cs : list (string * service)) (ctx : context) (name : string)
    (svc : service) :
  NoDup (Dict.keys cs) →
  Dict.get cs name = Some svc →
  name ∈ default ∅ (overrides (config ctx)) →
  Dict.get (compose_services (run_transform cs ctx).2) name = Some svc
  ∨ (Dict.get (compose_services (run_transform cs ctx).2) name = None
     ∧ Py.contains "init-prepare-write-dirs" name = true).
Proof.
  intros Hnodup Hget Hov.
  destruct (run_transform_keeps cs ctx name svc Hnodup Hget (or_introl Hov))
    as [_ [Hsame | [Hgone (kc & _ & _ & Hinit)]]]; [by left|].
  right. split; [done|].
  by apply andb_true_iff in Hinit as [_ ?].
Qed.

(** C1, on the code: the removal of Keycloak companions does not consult
    the overrides. With a Keycloak-family service that is repaired and a
    companion that the operator has overridden, the transform completes
    and the overridden service is gone from the Service Set, in either
    insertion order. *)
Theorem overridden_companion_removed `{dec : Base64Decoder}
    (ctx : context) (kc_name init_name : string) (kc init : service)
    (cs : list (string * service)) :
  kc_name ∉ default ∅ (overrides (config ctx)) →
  init_name ∈ default ∅ (overrides (config ctx)) →
  kc_name ≠ init_name →
  _is_bitnami_image kc "redis" = false →
  _is_bitnami_image kc "postgresql" = false →
  _is_bitnami_image kc "keycloak" = true →
  is_keycloak_init kc_name init_name = true →
  is_keycloak_init kc_name kc_name = false →
  cs = [(kc_name, kc); (init_name, init)]
  ∨ cs = [(init_name, init); (kc_name, kc)] →
  Dict.get cs init_name = Some init
  ∧ (run_transform cs ctx).1 = Ok tt
  ∧ Dict.get (compose_services (run_transform cs ctx).2) init_name = None.
Proof.
  intros Hkc Hov Hne Hred Hpg Hkey Hinit Hown [-> | ->].
  - rewrite run_keycloak_first by done.
    rewrite bool_decide_eq_true_2 by done.
    cbn [fst snd compose_services Dict.get].
    rewrite (eqb_distinct _ _ Hne), String.eqb_refl. done.
  - rewrite run_init_first by auto.
    cbn [fst snd compose_services Dict.get].
    rewrite (eqb_distinct _ _ Hne), String.eqb_refl. done.
Qed.

Lemma overridden_companion_removed_witness :
  Dict.get Sample.init_first "auth-init-prepare-write-dirs" = Some Sample.init
  ∧ (run_transform (dec := Sample.decoder) Sample.init_first
       Sample.init_overridden).1 = Ok tt
  ∧ Dict.get
      (compose_services
         (run_transform (dec := Sample.decoder) Sample.init_first
            Sample.init_overridden).2)
      "auth-init-prepare-write-dirs" = None.
Proof.
  apply (overridden_companion_removed (dec := Sample.decoder)
           Sample.init_overridden "auth-keycloak"
           "auth-init-prepare-write-dirs" Sample.keycloak Sample.init);
    try reflexivity.
  - apply (bool_decide_unpack _). by vm_compute.
  - discriminate.
  - by right.
Defined.

(** C2, on the code: the loop runs over a snapshot of the names, but
    indexes the Service Set with each of them. When a Keycloak-family
    service stands before its companion, the companion is deleted and
    the lookup of its name then raises [KeyError]; with the companion
    first the same Service Set is transformed without error. The outcome
    depends on the insertion order. *)
Theorem transform_raises_on_removed_companion `{dec : Base64Decoder}
    (ctx : context) (kc_name init_name : string) (kc init : service) :
  kc_name ∉ default ∅ (overrides (config ctx)) →
  init_name ∉ default ∅ (overrides (config ctx)) →
  kc_name ≠ init_name →
  _is_bitnami_image kc "redis" = false →
  _is_bitnami_image kc "postgresql" = false →
  _is_bitnami_image kc "keycloak" = true →
  is_keycloak_init kc_name init_name = true →
  is_keycloak_init kc_name kc_name = false →
  unmatched init = true →
  (run_transform [(kc_name, kc); (init_name, init)] ctx).1
  = Raise (KeyError init_name)
  ∧ (run_transform [(init_name, init); (kc_name, kc)] ctx).1 = Ok tt.
Proof.
  intros Hkc Hov Hne Hred Hpg Hkey Hinit Hown Hun. split.
  - rewrite run_keycloak_first by done.
    by rewrite bool_decide_eq_false_2 by done.
  - by rewrite run_init_first by auto.
Qed.

Lemma transform_raises_on_removed_companion_witness :
  (run_transform (dec := Sample.decoder) Sample.keycloak_first
     (Sample.ctx Sample.auth_secrets)).1
  = Raise (KeyError "auth-init-prepare-write-dirs")
  ∧ (run_transform (dec := Sample.decoder) Sample.init_first
       (Sample.ctx Sample.auth_secrets)).1 = Ok tt.
Proof.
  apply (transform_raises_on_removed_companion (dec := Sample.decoder)
           (Sample.ctx Sample.auth_secrets) "auth-keycloak"
           "auth-init-prepare-write-dirs" Sample.keycloak Sample.init);
    try reflexivity.
  - apply not_elem_of_empty.
  - apply not_elem_of_empty.
  - discriminate.
Defined.

(** C6, on the code: in scenario C with "auth-keycloak" inserted before
    "auth-init-prepare-write-dirs", the transform sets the two variables
    and deletes the companion, and then raises [KeyError] at the name of
    the deleted companion; it completes only when the companion was
    inserted first. *)
Theorem identity_scenario_raises_after_repair `{dec : Base64Decoder} :
  run_transform Sample.keycloak_first (Sample.ctx Sample.auth_secrets)
  = (Raise (KeyError "auth-init-prepare-write-dirs"),
     World [("auth-keycloak", Sample.keycloak_repaired)] Sample.auth_lines)
  ∧ run_transform Sample.init_first (Sample.ctx Sample.auth_secrets)
    = (Ok tt,
       World [("auth-keycloak", Sample.keycloak_repaired)] Sample.auth_lines).
Proof. split; vm_compute; reflexivity. Qed.

(** C8, as the claim states it, fails: a service of none of the three
    families is deleted when it is the companion of a Keycloak-family
    service. *)
Lemma unmatched_companion_removed :
  unmatched Sample.init = true
  ∧ Dict.get Sample.init_first "auth-init-prepare-write-dirs"
    = Some Sample.init
  ∧ (run_transform (dec := Sample.decoder) Sample.init_first
       (Sample.ctx Sample.auth_secrets)).1 = Ok tt
  ∧ Dict.get
      (compose_services
         (run_transform (dec := Sample.decoder) Sample.init_first
            (Sample.ctx Sample.auth_secrets)).2)
      "auth-init-prepare-write-dirs" = None.
Proof. by vm_compute. Qed.


(** * Further properties *)

(** ** Deleting entries of a dictionary *)

Section DictFilter.
Context {V : Type}.
Implicit Types (d : list (string * V)) (k : string) (f : string → bool).

Lemma keys_filter d f :
  Dict.keys (List.filter (λ kv, f kv.1) d) = List.filter f (Dict.keys d).
Proof.
  induction d as [|[k v] d IH]; [done|]. cbn [List.filter fst].
  rewrite keys_cons. cbn [List.filter]. destruct (f k); [|done].
  by rewrite keys_cons, IH.
Qed.

Lemma filter_all {A} (g : A → bool) (l : list A) :
  (∀ x, x ∈ l → g x = true) → List.filter g l = l.
Proof.
  induction l as [|x l IH]; [done|]. intros Hall. cbn [List.filter].
  rewrite (Hall x) by apply list_elem_of_here. f_equal.
  apply IH. intros y Hy. apply Hall. by apply list_elem_of_further.
Qed.

Lemma filter_none {A} (g : A → bool) (l : list A) :
  (∀ x, x ∈ l → g x = false) → List.filter g l = [].
Proof.
  induction l as [|x l IH]; [done|]. intros Hall. cbn [List.filter].
  rewrite (Hall x) by apply list_elem_of_here.
  apply IH. intros y Hy. apply Hall. by apply list_elem_of_further.
Qed.

Lemma filter_sublist {A} (g : A → bool) (l : list A) :
  List.filter g l `sublist_of` l.
Proof.
  induction l as [|x l IH]; [done|]. cbn [List.filter].
  destruct (g x); by constructor.
Qed.

Lemma filter_nodup {A} (g : A → bool) (l : list A) :
  NoDup l → NoDup (List.filter g l).
Proof.
  intros Hl.
  apply (sublist_NoDup (List.filter g l) l); first [apply filter_sublist | done].
Qed.

Lemma elem_of_keys d k : k ∈ Dict.keys d ↔ ∃ v, (k, v) ∈ d.
Proof.
  unfold Dict.keys. rewrite list_elem_of_fmap. split.
  - intros ([k' v] & -> & Hin). by exists v.
  - intros [v Hin]. by exists (k, v).
Qed.

(** [del d[k]] leaves the other entries, in their order. *)
Lemma remove_filter d k :
  NoDup (Dict.keys d) →
  Dict.remove d k = List.filter (λ kv, negb (String.eqb kv.1 k)) d.
Proof.
  induction d as [|[k0 v0] d IH]; [done|].
  rewrite keys_cons. intros [Hk0 Hd]%NoDup_cons.
  cbn [Dict.remove List.filter fst].
  destruct (String.eqb_spec k0 k) as [->|Hne]; cbn [negb].
  - symmetry. apply filter_all. intros [k' v'] Hin. cbn [fst].
    apply negb_true_iff, String.eqb_neq. intros ->.
    apply Hk0, elem_of_keys. by exists v'.
  - by rewrite IH.
Qed.

Lemma filter_twice {A} (g h : A → bool) (l : list A) :
  List.filter g (List.filter h l) = List.filter (λ x, h x && g x) l.
Proof.
  induction l as [|x l IH]; [done|]. cbn [List.filter].
  destruct (h x); cbn [List.filter andb]; [|done].
  destruct (g x); by rewrite IH.
Qed.

Lemma key_survives_remove d k k' :
  k' ≠ k → k' ∈ Dict.keys d → k' ∈ Dict.keys (Dict.remove d k).
Proof.
  intros Hne Hin. apply dec_stable. intros Hno.
  apply get_none_not_key in Hno. rewrite get_remove_other in Hno by done.
  by apply get_none_not_key in Hno.
Qed.

Lemma get_key d k : k ∈ Dict.keys d → ∃ v, Dict.get d k = Some v ∧ (k, v) ∈ d.
Proof.
  induction d as [|[k0 v0] d IH]; [by intros ?%not_elem_of_nil|].
  rewrite keys_cons. cbn [Dict.get].
  destruct (String.eqb_spec k0 k) as [->|Hne].
  - intros _. exists v0. split; [done | apply list_elem_of_here].
  - intros [->|Hin]%elem_of_cons; [done|].
    destruct (IH Hin) as (v & Hget & Hv). exists v.
    split; [done | by apply list_elem_of_further].
Qed.
End DictFilter.

(** ** The removal of Keycloak companions *)

Section CompanionRemoval.
Implicit Types (cs : list (string * service)) (log rm : list string).

Lemma for_each_cons {A : Type} (x : A) (xs : list A) (body : A → M unit)
    (w : world) :
  for_each (x :: xs) body w
  = match body x w with
    | (Ok _, w') => for_each xs body w'
    | (Raise e, w') => (Raise e, w')
    end.
Proof. reflexivity. Qed.

Lemma delete_step n cs log v :
  Dict.get cs n = Some v →
  (delitem n;; emit [removal_line n]) (World cs log)
  = (Ok tt, World (Dict.remove cs n) (log ++ [removal_line n])).
Proof.
  intros Hget. unfold mbind, M_bind, delitem, Dict.del, emit.
  cbn [compose_services stderr]. by rewrite Hget.
Qed.

Lemma delete_each rm : ∀ cs log,
  NoDup rm → (∀ n, n ∈ rm → n ∈ Dict.keys cs) → NoDup (Dict.keys cs) →
  for_each rm (λ name, delitem name;; emit [removal_line name]) (World cs log)
  = (Ok tt,
     World (List.filter (λ kv, negb (bool_decide (kv.1 ∈ rm))) cs)
           (log ++ (removal_line <$> rm))).
Proof.
  induction rm as [|n rm IH]; intros cs log Hrm Hin Hcs.
  - cbn [for_each fmap list_fmap]. rewrite app_nil_r, filter_all; [done|].
    intros kv _. apply negb_true_iff, bool_decide_eq_false, not_elem_of_nil.
  - apply NoDup_cons in Hrm as [Hn Hrm].
    destruct (get_key cs n) as (v & Hget & _);
      [apply Hin, list_elem_of_here|].
    rewrite for_each_cons, (delete_step n cs log v Hget).
    rewrite IH; [|done| |by apply keys_remove_nodup].
    + rewrite remove_filter, filter_twice by done.
      rewrite <- app_assoc. do 2 f_equal.
      apply filter_ext. intros [k v']. cbn [fst].
      destruct (String.eqb_spec k n) as [->|Hne]; cbn [negb andb].
      * symmetry. apply negb_false_iff, bool_decide_eq_true.
        apply list_elem_of_here.
      * f_equal. apply bool_decide_ext. rewrite elem_of_cons.
        split; [by right | by intros [?|?]].
    + intros m Hm. apply key_survives_remove.
      * intros ->. done.
      * apply Hin. by apply list_elem_of_further.
Qed.

Lemma fix_keycloak_init_effect svc_name cs log :
  NoDup (Dict.keys cs) →
  _fix_keycloak_init svc_name (World cs log)
  = (Ok tt,
     World (List.filter (λ kv, negb (is_keycloak_init svc_name kv.1)) cs)
           (log ++ (removal_line
                      <$> List.filter (is_keycloak_init svc_name) (Dict.keys cs)))).
Proof.
  intros Hcs. unfold _fix_keycloak_init, snapshot.
  unfold mbind at 1, M_bind at 1. cbn [compose_services].
  change (λ name : string, delitem name;; emit [_log (name +:+ ": removed (emptyDir copy fails in compose)")])
    with (λ name : string, delitem name;; emit [removal_line name]).
  rewrite delete_each;
    [|by apply filter_nodup| |done].
  - do 2 f_equal. apply filter_ext_in. intros [k v] Hkv. cbn [fst]. f_equal.
    destruct (is_keycloak_init svc_name k) eqn:E.
    + apply bool_decide_eq_true_2, list_elem_of_In, filter_In.
      split; [|done]. apply list_elem_of_In, elem_of_keys. exists v.
      by apply list_elem_of_In.
    + apply bool_decide_eq_false_2.
      intros [_ ?]%list_elem_of_In%filter_In. congruence.
  - intros n [Hn _]%list_elem_of_In%filter_In. by apply list_elem_of_In.
Qed.
End CompanionRemoval.

(** ** Outcome of the loop *)

Lemma for_each_post {A : Type} (I : world → Prop) (R : exn → world → Prop)
    (xs : list A) (body : A → M unit) :
  (∀ x, x ∈ xs → ∀ w, I w →
     match body x w with
     | (Ok _, w') => I w'
     | (Raise e, w') => I w' ∧ R e w'
     end) →
  ∀ w, I w →
    match for_each xs body w with
    | (Ok _, w') => I w'
    | (Raise e, w') => I w' ∧ R e w'
    end.
Proof.
  induction xs as [|x xs IH]; intros Hbody w Hw; [done|].
  rewrite for_each_cons.
  pose proof (Hbody x (list_elem_of_here _ _) w Hw) as Hstep.
  destruct (body x w) as [[[]|e] w']; [|done].
  apply IH; [|done].
  intros y Hy. apply Hbody. by apply list_elem_of_further.
Qed.

Section Outcome.
Context `{dec : Base64Decoder}.
Variables (ctx : context) (cs0 : list (string * service)).
#[local] Abbreviation ov := (default ∅ (overrides (config ctx))).

Lemma mutate_emit svc_name svc' lines w :
  (mutate svc_name svc';; emit lines) w
  = (Ok tt, World (Dict.set (compose_services w) svc_name svc')
                  (stderr w ++ lines)).
Proof. reflexivity. Qed.

Lemma mutate_emit_init svc_name svc' lines w :
  (mutate svc_name svc';; emit lines;; _fix_keycloak_init svc_name) w
  = _fix_keycloak_init svc_name
      (World (Dict.set (compose_services w) svc_name svc') (stderr w ++ lines)).
Proof. reflexivity. Qed.

Lemma names_kept_set svc_name svc' log w :
  svc_name ∈ Dict.keys (compose_services w) →
  names_kept cs0 w →
  names_kept cs0 (World (Dict.set (compose_services w) svc_name svc') log).
Proof.
  intros Hin Hw. unfold names_kept. cbn [compose_services].
  by rewrite keys_set_present.
Qed.

Lemma not_companion_without_marker kc n :
  Py.contains "init-prepare-write-dirs" n = false →
  is_keycloak_init kc n = false.
Proof. intros Hm. unfold is_keycloak_init. by rewrite Hm, andb_false_r. Qed.

Lemma names_kept_filter kc log w :
  names_kept cs0 w →
  names_kept cs0
    (World (List.filter (λ kv, negb (is_keycloak_init kc kv.1))
              (compose_services w)) log).
Proof.
  intros (Hnodup & Hsub & Hkeep). unfold names_kept. cbn [compose_services].
  rewrite (keys_filter _ (λ k, negb (is_keycloak_init kc k))).
  split_and!.
  - by apply filter_nodup.
  - etrans; [apply filter_sublist | done].
  - intros n Hn Hm. apply list_elem_of_In, filter_In. split.
    + by apply list_elem_of_In, Hkeep.
    + by rewrite not_companion_without_marker.
Qed.

Lemma transform_body_post svc_name w :
  svc_name ∈ Dict.keys cs0 → names_kept cs0 w →
  match transform_body ctx ov svc_name w with
  | (Ok _, w') => names_kept cs0 w'
  | (Raise e, w') => names_kept cs0 w' ∧ raised_on_deleted cs0 ov e w'
  end.
Proof.
  intros Hin Hw. unfold transform_body.
  case_bool_decide as Hov; [done|].
  unfold mbind at 1, M_bind at 1, getitem.
  destruct (Dict.get (compose_services w) svc_name) as [cur|] eqn:Hget.
  - pose proof (get_some_key _ _ _ Hget) as Hkey.
    destruct (_is_bitnami_image cur "redis").
    { destruct (_fix_redis svc_name cur ctx) as [svc' lines].
      rewrite mutate_emit. by apply names_kept_set. }
    destruct (_is_bitnami_image cur "postgresql").
    { destruct (_fix_postgresql svc_name cur ctx) as [svc' lines].
      rewrite mutate_emit. by apply names_kept_set. }
    destruct (_is_bitnami_image cur "keycloak"); [|done].
    destruct (_fix_keycloak svc_name cur ctx) as [svc' lines].
    rewrite mutate_emit_init, fix_keycloak_init_effect.
    + apply names_kept_filter with (w := World _ (stderr w ++ lines)).
      by apply names_kept_set.
    + rewrite keys_set_present by done. apply Hw.
  - split; [done|]. exists svc_name. split_and!; [done..| |done].
    destruct (Py.contains "init-prepare-write-dirs" svc_name) eqn:Hm; [done|].
    destruct Hw as (_ & _ & Hkeep).
    apply get_none_not_key in Hget. destruct Hget. by apply Hkeep.
Qed.

Lemma run_transform_post cs :
  cs = cs0 → NoDup (Dict.keys cs0) →
  match run_transform cs ctx with
  | (Ok _, w') => names_kept cs0 w'
  | (Raise e, w') => names_kept cs0 w' ∧ raised_on_deleted cs0 ov e w'
  end.
Proof.
  intros -> Hnodup. unfold run_transform, transform, snapshot.
  unfold mbind at 1, M_bind at 1. cbn [compose_services].
  apply for_each_post.
  - intros svc_name Hin w Hw. by apply transform_body_post.
  - by split_and!.
Qed.
End Outcome.

(** ** Sets without companions: the services are repaired one by one *)

Section DictApp.
Context {V : Type}.
Implicit Types (d pre suf : list (string * V)) (k : string) (v : V).

Lemma keys_app pre suf : Dict.keys (pre ++ suf) = Dict.keys pre ++ Dict.keys suf.
Proof. apply fmap_app. Qed.

Lemma get_app_skip pre suf k :
  k ∉ Dict.keys pre → Dict.get (pre ++ suf) k = Dict.get suf k.
Proof.
  induction pre as [|[k0 v0] pre IH]; [done|].
  rewrite keys_cons, not_elem_of_cons. intros [Hne Hpre].
  cbn [app Dict.get]. destruct (String.eqb_spec k0 k); [congruence|]. auto.
Qed.

Lemma set_app_skip pre suf k v :
  k ∉ Dict.keys pre → Dict.set (pre ++ suf) k v = pre ++ Dict.set suf k v.
Proof.
  induction pre as [|[k0 v0] pre IH]; [done|].
  rewrite keys_cons, not_elem_of_cons. intros [Hne Hpre].
  cbn [app Dict.set]. destruct (String.eqb_spec k0 k); [congruence|].
  by rewrite IH.
Qed.

Lemma keys_replace pre suf k v v' :
  Dict.keys (pre ++ (k, v') :: suf) = Dict.keys (pre ++ (k, v) :: suf).
Proof. by rewrite !keys_app, !keys_cons. Qed.

Lemma get_head k v d : Dict.get ((k, v) :: d) k = Some v.
Proof. cbn [Dict.get]. by rewrite String.eqb_refl. Qed.

Lemma set_head k v v' d : Dict.set ((k, v) :: d) k v' = (k, v') :: d.
Proof. cbn [Dict.set]. by rewrite String.eqb_refl. Qed.
End DictApp.

Section Independent.
Context `{dec : Base64Decoder}.
Variable ctx : context.
#[local] Abbreviation ov := (default ∅ (overrides (config ctx))).

Lemma fix_keycloak_init_no_companion svc_name cs log :
  NoDup (Dict.keys cs) → no_companion_names cs →
  _fix_keycloak_init svc_name (World cs log) = (Ok tt, World cs log).
Proof.
  intros Hnodup Hnames. rewrite fix_keycloak_init_effect by done.
  rewrite filter_all, filter_none, app_nil_r; [done| |].
  - intros n Hn. by apply not_companion_without_marker, Hnames.
  - intros [k v] Hkv. cbn [fst]. apply negb_true_iff.
    apply not_companion_without_marker, Hnames, elem_of_keys. by exists v.
Qed.

Lemma transform_body_at pre n svc suf log :
  NoDup (Dict.keys (pre ++ (n, svc) :: suf)) →
  no_companion_names (pre ++ (n, svc) :: suf) →
  transform_body ctx ov n (World (pre ++ (n, svc) :: suf) log)
  = (Ok tt, World (pre ++ (n, (repair ctx n svc).1) :: suf)
                  (log ++ (repair ctx n svc).2)).
Proof.
  intros Hnodup Hnames.
  assert (n ∉ Dict.keys pre) as Hpre.
  { rewrite keys_app, keys_cons in Hnodup.
    apply NoDup_app in Hnodup as (_ & Hdisj & _).
    intros Hin. apply (Hdisj n Hin), list_elem_of_here. }
  unfold transform_body, repair.
  case_bool_decide as Hov; [by rewrite app_nil_r|].
  unfold mbind at 1, M_bind at 1, getitem. cbn [compose_services].
  rewrite get_app_skip, get_head by done.
  destruct (_is_bitnami_image svc "redis").
  { destruct (_fix_redis n svc ctx) as [svc' lines].
    rewrite mutate_emit. cbn [compose_services stderr fst snd].
    by rewrite set_app_skip, set_head. }
  destruct (_is_bitnami_image svc "postgresql").
  { destruct (_fix_postgresql n svc ctx) as [svc' lines].
    rewrite mutate_emit. cbn [compose_services stderr fst snd].
    by rewrite set_app_skip, set_head. }
  destruct (_is_bitnami_image svc "keycloak"); [|by rewrite app_nil_r].
  destruct (_fix_keycloak n svc ctx) as [svc' lines].
  rewrite mutate_emit_init. cbn [compose_services stderr fst snd].
  rewrite set_app_skip, set_head by done.
  apply fix_keycloak_init_no_companion.
  - by rewrite (keys_replace pre suf n svc svc').
  - unfold no_companion_names. by rewrite (keys_replace pre suf n svc svc').
Qed.

Lemma loop_independent suf : ∀ pre log,
  NoDup (Dict.keys (pre ++ suf)) →
  no_companion_names (pre ++ suf) →
  for_each (Dict.keys suf) (transform_body ctx ov) (World (pre ++ suf) log)
  = (Ok tt, World (pre ++ repaired ctx suf) (log ++ repair_lines ctx suf)).
Proof.
  induction suf as [|[n svc] suf IH]; intros pre log Hnodup Hnames.
  - unfold repaired, repair_lines. cbn [fmap list_fmap concat Dict.keys for_each].
    by rewrite !app_nil_r.
  - rewrite keys_cons, for_each_cons, transform_body_at by done.
    rewrite (cons_middle _ pre suf), app_assoc, IH.
    + unfold repaired, repair_lines. cbn [fmap list_fmap concat fst snd].
      by rewrite <- !app_assoc.
    + rewrite <- app_assoc. cbn [app].
      by rewrite (keys_replace pre suf n svc).
    + unfold no_companion_names. rewrite <- app_assoc. cbn [app].
      by rewrite (keys_replace pre suf n svc).
Qed.

Lemma run_transform_independent cs :
  NoDup (Dict.keys cs) → no_companion_names cs →
  run_transform cs ctx
  = (Ok tt, World (repaired ctx cs) (repair_lines ctx cs)).
Proof.
  intros Hnodup Hnames. unfold run_transform, transform, snapshot.
  unfold mbind at 1, M_bind at 1. cbn [compose_services].
  exact (loop_independent cs [] [] Hnodup Hnames).
Qed.

Lemma keys_repaired cs : Dict.keys (repaired ctx cs) = Dict.keys cs.
Proof.
  unfold repaired, Dict.keys. rewrite <- list_fmap_compose.
  by apply list_fmap_ext.
Qed.
End Independent.

(** ** Running a repair twice *)

Section Idempotence.
Context `{dec : Base64Decoder}.
Implicit Types (svc : service) (ctx : context) (svc_name k v : string).

Lemma setdefault_twice k v svc :
  setdefault_environment k v (setdefault_environment k v svc)
  = setdefault_environment k v svc.
Proof.
  unfold setdefault_environment. cbn. by rewrite insert_insert_eq.
Qed.

Lemma setdefault_swap k1 v1 k2 v2 svc :
  k1 ≠ k2 →
  setdefault_environment k1 v1 (setdefault_environment k2 v2 svc)
  = setdefault_environment k2 v2 (setdefault_environment k1 v1 svc).
Proof.
  intros Hne. unfold setdefault_environment. cbn.
  by rewrite insert_insert_ne.
Qed.

(** Whether a credential is injected, and its value, do not depend on the
    record. *)
Lemma inject_cases svc_name ctx candidates key var :
  (∀ svc, _fix_keycloak_inject svc_name ctx candidates key var svc = (svc, []))
  ∨ (∃ pw line, pw ≠ "" ∧ ∀ svc,
       _fix_keycloak_inject svc_name ctx candidates key var svc
       = (setdefault_environment var pw svc, [line])).
Proof.
  unfold _fix_keycloak_inject.
  destruct (_find_secret _ _) as [[name sec]|]; [|by left].
  destruct (secret_truthy sec); [|by left].
  destruct (_secret_value sec key) as [pw|]; [|by left].
  destruct pw as [|c pw]; [by left|].
  right. exists (String c pw). eexists. split; [done|]. intros svc. reflexivity.
Qed.

Lemma fix_keycloak_twice svc_name svc ctx :
  _fix_keycloak svc_name (_fix_keycloak svc_name svc ctx).1 ctx
  = _fix_keycloak svc_name svc ctx.
Proof.
  unfold _fix_keycloak.
  destruct (inject_cases svc_name ctx (_fix_keycloak_sec_candidates svc_name)
              "admin-password" "KC_BOOTSTRAP_ADMIN_PASSWORD")
    as [H1 | (pw1 & l1 & _ & H1)];
  destruct (inject_cases svc_name ctx (_fix_keycloak_db_candidates svc_name)
              "password" "KC_DB_PASSWORD")
    as [H2 | (pw2 & l2 & _ & H2)];
  rewrite ?H1, ?H2; cbn [fst]; rewrite ?H1, ?H2; try done.
  - by rewrite setdefault_twice.
  - by rewrite setdefault_twice.
  - rewrite (setdefault_swap "KC_BOOTSTRAP_ADMIN_PASSWORD") by done.
    by rewrite !setdefault_twice.
Qed.

Lemma fix_keycloak_image svc_name svc ctx :
  image (_fix_keycloak svc_name svc ctx).1 = image svc.
Proof.
  unfold _fix_keycloak.
  destruct (inject_cases svc_name ctx (_fix_keycloak_sec_candidates svc_name)
              "admin-password" "KC_BOOTSTRAP_ADMIN_PASSWORD")
    as [H1 | (pw1 & l1 & _ & H1)];
  destruct (inject_cases svc_name ctx (_fix_keycloak_db_candidates svc_name)
              "password" "KC_DB_PASSWORD")
    as [H2 | (pw2 & l2 & _ & H2)];
  by rewrite ?H1, ?H2.
Qed.

Lemma fix_redis_twice svc_name svc ctx :
  _fix_redis svc_name (_fix_redis svc_name svc ctx).1 ctx
  = _fix_redis svc_name svc ctx.
Proof.
  unfold _fix_redis. destruct (_fix_redis_password svc_name ctx) as [pw|];
    [destruct (Py.truthy pw)|]; reflexivity.
Qed.

Lemma fix_redis_reads_others svc_name svc ctx :
  _fix_redis svc_name svc ctx
  = _fix_redis svc_name (Service None None None None None (others svc)) ctx.
Proof.
  unfold _fix_redis. destruct (_fix_redis_password svc_name ctx) as [pw|];
    [destruct (Py.truthy pw)|]; reflexivity.
Qed.

Lemma fix_redis_image svc_name svc ctx :
  image (_fix_redis svc_name svc ctx).1 = Some "redis:7-alpine".
Proof.
  unfold _fix_redis. destruct (_fix_redis_password svc_name ctx) as [pw|];
    [destruct (Py.truthy pw)|]; reflexivity.
Qed.

Lemma fix_redis_unmatched svc_name svc ctx :
  unmatched (_fix_redis svc_name svc ctx).1 = true.
Proof.
  unfold unmatched, _is_bitnami_image. by rewrite fix_redis_image.
Qed.

Lemma unmatched_no_family svc frag :
  Py.contains "bitnami" (default "" (image svc)) = false →
  _is_bitnami_image svc frag = false.
Proof. intros Hb. unfold _is_bitnami_image. by rewrite Hb. Qed.

Lemma repair_twice ctx svc_name svc :
  (repair ctx svc_name (repair ctx svc_name svc).1).1
  = (repair ctx svc_name svc).1.
Proof.
  unfold repair. case_bool_decide; [done|].
  destruct (_is_bitnami_image svc "redis") eqn:Hred.
  { rewrite !unmatched_no_family; [done|..];
      by rewrite fix_redis_image. }
  destruct (_is_bitnami_image svc "postgresql") eqn:Hpg.
  { assert (∀ frag, _is_bitnami_image (_fix_postgresql svc_name svc ctx).1 frag
                    = _is_bitnami_image svc frag) as Hsame by done.
    by rewrite !Hsame, Hred, Hpg. }
  destruct (_is_bitnami_image svc "keycloak") eqn:Hkc.
  { assert (∀ frag, _is_bitnami_image (_fix_keycloak svc_name svc ctx).1 frag
                    = _is_bitnami_image svc frag) as Hsame.
    { intros frag. unfold _is_bitnami_image. by rewrite fix_keycloak_image. }
    by rewrite !Hsame, Hred, Hpg, Hkc, fix_keycloak_twice. }
  cbn [fst]. by rewrite Hred, Hpg, Hkc.
Qed.

Lemma repaired_twice ctx cs :
  repaired ctx (repaired ctx cs) = repaired ctx cs.
Proof.
  unfold repaired. rewrite <- list_fmap_compose.
  apply list_fmap_ext. intros i [n svc] _. cbn [compose fst snd].
  by rewrite repair_twice.
Qed.
End Idempotence.

(** ** Sets the transform passes over *)

Section PassOver.
Context `{dec : Base64Decoder}.
Variable ctx : context.
#[local] Abbreviation ov := (default ∅ (overrides (config ctx))).

Lemma transform_body_pass svc_name w :
  svc_name ∈ ov
  ∨ (∃ svc, Dict.get (compose_services w) svc_name = Some svc
            ∧ unmatched svc = true) →
  transform_body ctx ov svc_name w = (Ok tt, w).
Proof.
  intros Hpass. unfold transform_body. case_bool_decide as Hov; [done|].
  destruct Hpass as [|(svc & Hget & Hun)]; [done|].
  unfold mbind, M_bind, getitem. rewrite Hget.
  unfold unmatched in Hun.
  apply andb_true_iff in Hun as [[H1 H2]%andb_true_iff H3].
  apply negb_true_iff in H1, H2, H3. by rewrite H1, H2, H3.
Qed.

Lemma loop_pass names w :
  (∀ n, n ∈ names →
     n ∈ ov ∨ (∃ svc, Dict.get (compose_services w) n = Some svc
                      ∧ unmatched svc = true)) →
  for_each names (transform_body ctx ov) w = (Ok tt, w).
Proof.
  induction names as [|n names IH]; intros Hpass; [done|].
  rewrite for_each_cons, transform_body_pass
    by apply Hpass, list_elem_of_here.
  apply IH. intros m Hm. by apply Hpass, list_elem_of_further.
Qed.

Lemma run_transform_pass cs :
  (∀ n svc, (n, svc) ∈ cs → n ∈ ov ∨ unmatched svc = true) →
  run_transform cs ctx = (Ok tt, World cs []).
Proof.
  intros Hpass. unfold run_transform, transform, snapshot.
  unfold mbind at 1, M_bind at 1. cbn [compose_services].
  apply loop_pass. intros n Hn. cbn [compose_services].
  destruct (get_key cs n Hn) as (svc & Hget & Hin).
  destruct (Hpass n svc Hin) as [|Hun]; [by left|].
  right. by exists svc.
Qed.
End PassOver.

(** ** Substring containment *)

Lemma contains_iff (p s : string) :
  Py.contains p s = true ↔ ∃ a b, s = a +:+ p +:+ b.
Proof.
  split.
  - induction s as [|c s IH]; cbn [Py.contains].
    + rewrite orb_false_r. intros [rest ->]%startswith_app. by exists "", rest.
    + intros [[rest ->]%startswith_app | Hs]%orb_true_iff.
      * by exists "", rest.
      * destruct (IH Hs) as (a & b & ->). by exists (String c a), b.
  - intros (a & b & ->). induction a as [|c a IH].
    + exact (contains_app_self p b).
    + change (String c a +:+ p +:+ b) with (String c (a +:+ p +:+ b)).
      cbn [Py.contains]. by rewrite IH, orb_true_r.
Qed.

(** ** What the identity repair writes *)

Section KeycloakFacts.
Context `{dec : Base64Decoder}.
Implicit Types (svc : service) (ctx : context) (svc_name k : string).

Lemma secret_value_truthy sec key pw :
  _secret_value sec key = Some pw → secret_truthy sec = true.
Proof.
  intros Hv. destruct (secret_truthy sec) eqn:Ht; [done|].
  by rewrite secret_value_falsy in Hv.
Qed.

Lemma inject_found svc_name ctx candidates key var svc name sec pw :
  _find_secret (secrets ctx) candidates = Some (name, sec) →
  _secret_value sec key = Some pw → pw ≠ "" →
  _fix_keycloak_inject svc_name ctx candidates key var svc
  = (setdefault_environment var pw svc,
     [_log (svc_name +:+ ": " +:+ var +:+ " set from Secret '"
              +:+ name +:+ "'")]).
Proof.
  intros Hfind Hv Hpw. unfold _fix_keycloak_inject.
  rewrite Hfind, (secret_value_truthy _ _ _ Hv), Hv.
  by destruct pw.
Qed.

Lemma inject_unresolved svc_name ctx candidates key var svc :
  _find_secret (secrets ctx) candidates = None →
  _fix_keycloak_inject svc_name ctx candidates key var svc = (svc, []).
Proof. intros Hfind. unfold _fix_keycloak_inject. by rewrite Hfind. Qed.

Lemma env_lookup_setdefault var pw svc :
  env_lookup (setdefault_environment var pw svc) var = Some pw.
Proof. unfold env_lookup. cbn. by rewrite lookup_insert_eq. Qed.

Lemma inject_frame svc_name ctx candidates key var svc :
  let svc' := (_fix_keycloak_inject svc_name ctx candidates key var svc).1 in
  image svc' = image svc ∧ entrypoint svc' = entrypoint svc
  ∧ command svc' = command svc ∧ volumes svc' = volumes svc
  ∧ others svc' = others svc.
Proof.
  destruct (inject_cases svc_name ctx candidates key var)
    as [H1 | (pw1 & l1 & _ & H1)]; by rewrite H1.
Qed.
End KeycloakFacts.

(** ** The naming prefix of the identity repair *)

Section KeycloakPrefix.
Implicit Types p q name : string.

Ltac by_leading_chars :=
  repeat match goal with
  | |- context [Ascii.eqb ?a ?b] =>
      destruct (Ascii.eqb_spec a b); subst; simpl in *; try done
  | q : string |- _ => destruct q; simpl in *; try done
  end.

Lemma no_early_keycloak c q :
  Py.contains "keycloak" (String c q) = false →
  Py.startswith (String c q +:+ "-keycloak") "-keycloak" = false.
Proof. intros Hc. simpl in *. by_leading_chars. Qed.

Lemma keycloak_fragment p :
  Py.contains "keycloak" p = false →
  Py.replace (p +:+ "-keycloak") "-keycloak" "" = p.
Proof.
  intros Hc. unfold Py.replace. rewrite replace_from_copy.
  - change (Py.replace_from 0 "-keycloak" "-keycloak" "") with "".
    apply app_empty_r.
  - intros s1 c s2 ->. apply no_early_keycloak.
    by apply contains_suffix in Hc.
Qed.

Lemma keycloak_prefix_conventional p :
  Py.contains "keycloak" p = false → Py.strip p "-" = p →
  _fix_keycloak_prefix (p +:+ "-keycloak") = p.
Proof.
  intros Hc Hs. unfold _fix_keycloak_prefix.
  rewrite keycloak_fragment by done.
  unfold Py.replace. by rewrite replace_from_absent.
Qed.
End KeycloakPrefix.

(** ** The diagnostics stream *)

Section LogLines.
Context `{dec : Base64Decoder}.
Implicit Types (svc : service) (ctx : context) (svc_name : string).

Lemma log_is_log_line msg : is_log_line (_log msg).
Proof. apply startswith_app. by exists msg. Qed.

Lemma fix_redis_lines svc_name svc ctx :
  Forall is_log_line (_fix_redis svc_name svc ctx).2.
Proof.
  unfold _fix_redis. destruct (_fix_redis_password svc_name ctx) as [pw|];
    [destruct (Py.truthy pw)|]; cbn [snd];
    repeat (apply Forall_cons; split; [apply log_is_log_line|]);
    apply Forall_nil_2.
Qed.

Lemma fix_postgresql_lines svc_name svc ctx :
  Forall is_log_line (_fix_postgresql svc_name svc ctx).2.
Proof.
  cbn [_fix_postgresql snd].
  repeat (apply Forall_cons; split; [apply log_is_log_line|]).
  apply Forall_nil_2.
Qed.

Lemma inject_lines svc_name ctx candidates key var svc :
  Forall is_log_line
    (_fix_keycloak_inject svc_name ctx candidates key var svc).2.
Proof.
  unfold _fix_keycloak_inject.
  destruct (_find_secret _ _) as [[name sec]|]; [|apply Forall_nil_2].
  destruct (secret_truthy sec); [|apply Forall_nil_2].
  destruct (_secret_value sec key) as [pw|]; [|apply Forall_nil_2].
  destruct (Py.truthy pw); [|apply Forall_nil_2].
  apply Forall_cons. split; [apply log_is_log_line | apply Forall_nil_2].
Qed.

Lemma fix_keycloak_lines svc_name svc ctx :
  Forall is_log_line (_fix_keycloak svc_name svc ctx).2.
Proof.
  unfold _fix_keycloak.
  pose proof (inject_lines svc_name ctx (_fix_keycloak_sec_candidates svc_name)
                "admin-password" "KC_BOOTSTRAP_ADMIN_PASSWORD" svc) as H1.
  destruct (_fix_keycloak_inject _ _ _ "admin-password" _ svc) as [svc1 l1].
  pose proof (inject_lines svc_name ctx (_fix_keycloak_db_candidates svc_name)
                "password" "KC_DB_PASSWORD" svc1) as H2.
  destruct (_fix_keycloak_inject _ _ _ "password" _ svc1) as [svc2 l2].
  cbn [snd] in *. by apply Forall_app.
Qed.

Lemma fix_keycloak_init_lines svc_name w :
  Forall is_log_line (stderr w) →
  Forall is_log_line (stderr (_fix_keycloak_init svc_name w).2).
Proof.
  intros Hw. unfold _fix_keycloak_init, snapshot.
  unfold mbind at 1, M_bind at 1.
  apply (for_each_keeps (λ w, Forall is_log_line (stderr w))); [|done].
  intros n _ w' Hw'. unfold mbind, M_bind, delitem.
  destruct (Dict.del (compose_services w') n); [|done].
  cbn [emit snd stderr]. apply Forall_app. split; [done|].
  apply Forall_cons. split; [apply log_is_log_line | apply Forall_nil_2].
Qed.

Lemma transform_body_lines ctx ov svc_name w :
  Forall is_log_line (stderr w) →
  Forall is_log_line (stderr (transform_body ctx ov svc_name w).2).
Proof.
  intros Hw. unfold transform_body. case_bool_decide; [done|].
  unfold mbind at 1, M_bind at 1, getitem.
  destruct (Dict.get (compose_services w) svc_name) as [cur|]; [|done].
  destruct (_is_bitnami_image cur "redis").
  { pose proof (fix_redis_lines svc_name cur ctx) as Hl.
    destruct (_fix_redis svc_name cur ctx) as [svc' lines].
    rewrite mutate_emit. cbn [snd stderr] in *. by apply Forall_app. }
  destruct (_is_bitnami_image cur "postgresql").
  { pose proof (fix_postgresql_lines svc_name cur ctx) as Hl.
    destruct (_fix_postgresql svc_name cur ctx) as [svc' lines].
    rewrite mutate_emit. cbn [snd stderr] in *. by apply Forall_app. }
  destruct (_is_bitnami_image cur "keycloak"); [|done].
  pose proof (fix_keycloak_lines svc_name cur ctx) as Hl.
  destruct (_fix_keycloak svc_name cur ctx) as [svc' lines].
  rewrite mutate_emit_init. apply fix_keycloak_init_lines.
  cbn [snd stderr] in *. by apply Forall_app.
Qed.
End LogLines.

(** X1: [_is_bitnami_image] holds exactly when the record has an image
    string in which both "bitnami" and the fragment occur as substrings;
    a record without an image key is therefore of no family. *)
Theorem bitnami_image_iff_substrings (svc : service) (name_fragment : string) :
  (_is_bitnami_image svc name_fragment = true ↔
   ∃ img, image svc = Some img
     ∧ (∃ a b, img = a +:+ "bitnami" +:+ b)
     ∧ (∃ a b, img = a +:+ name_fragment +:+ b))
  ∧ (image svc = None → unmatched svc = true).
Proof.
  split.
  - unfold _is_bitnami_image. rewrite andb_true_iff, !contains_iff.
    destruct (image svc) as [img|]; cbn [default].
    + split; [intros [? ?]; by exists img | by intros (? & [= <-] & ? & ?)].
    + split; [|by intros (? & ? & _)].
      intros [Hb%contains_iff _]. done.
  - intros Hnone. unfold unmatched, _is_bitnami_image. by rewrite Hnone.
Qed.

Lemma bitnami_image_iff_substrings_witness :
  unmatched (Service None None None None None ∅) = true.
Proof.
  by apply (bitnami_image_iff_substrings (Service None None None None None ∅)
              "redis").
Defined.

(** X2: on a Service Set in which every service is overridden or of no
    family (the empty set included), the transform completes, changes
    nothing and logs nothing. *)
Theorem transform_passes_over_unrepaired_set `{dec : Base64Decoder}
    (cs : list (string * service)) (ctx : context) :
  (∀ n svc, (n, svc) ∈ cs →
     n ∈ default ∅ (overrides (config ctx)) ∨ unmatched svc = true) →
  run_transform cs ctx = (Ok tt, World cs []).
Proof. apply run_transform_pass. Qed.

Lemma transform_passes_over_unrepaired_set_witness :
  run_transform (dec := Sample.decoder) Fixture.plain_set
    (Sample.ctx Sample.auth_secrets)
  = (Ok tt, World Fixture.plain_set []).
Proof.
  apply (transform_passes_over_unrepaired_set (dec := Sample.decoder)).
  intros n svc [[= -> ->]|[[= -> ->]|[]%not_elem_of_nil]%elem_of_cons]%elem_of_cons;
    by right.
Defined.

(** X3: on a Service Set with distinct names none of which carries the
    companion marker "init-prepare-write-dirs", the transform completes
    and is the entry-wise repair: each entry is replaced in place by its
    own repair, the names and their order are kept, and the lines are
    those of the repairs in the order of the entries. *)
Theorem transform_repairs_entries_independently `{dec : Base64Decoder}
    (cs : list (string * service)) (ctx : context) :
  NoDup (Dict.keys cs) →
  no_companion_names cs →
  run_transform cs ctx = (Ok tt, World (repaired ctx cs) (repair_lines ctx cs))
  ∧ Dict.keys (repaired ctx cs) = Dict.keys cs.
Proof.
  intros Hnodup Hnames. split.
  - by apply run_transform_independent.
  - apply keys_repaired.
Qed.

Lemma no_companion_names_mixed : no_companion_names Fixture.mixed.
Proof.
  intros n Hn. repeat (apply elem_of_cons in Hn as [->|Hn]; [reflexivity|]).
  by apply not_elem_of_nil in Hn.
Qed.

Lemma nodup_mixed : NoDup (Dict.keys Fixture.mixed).
Proof. apply (bool_decide_unpack _). by vm_compute. Qed.

Lemma transform_repairs_entries_independently_witness :
  run_transform (dec := Sample.decoder) Fixture.mixed
    (Sample.ctx Sample.cache_secrets)
  = (Ok tt,
     World
       [ ("cache-redis-master",
          Service (Some "redis:7-alpine") None
            (Some ["redis-server"; "--requirepass"; "s3cret"])
            (Some ["./data/cache-redis-master:/data"]) None ∅);
         ("db-postgresql",
          Service (Some "bitnami/postgresql:16") None None
            (Some [ "./data/db-postgresql:/bitnami/postgresql";
                    "./secrets/db-postgresql:/opt/bitnami/postgresql/secrets:ro" ])
            None ∅);
         ("web", Sample.svc "nginx:1.25") ]
       (repair_lines (dec := Sample.decoder)
          (Sample.ctx Sample.cache_secrets) Fixture.mixed)).
Proof.
  destruct (transform_repairs_entries_independently (dec := Sample.decoder)
              Fixture.mixed (Sample.ctx Sample.cache_secrets)
              nodup_mixed no_companion_names_mixed) as [Hrun _].
  rewrite Hrun. reflexivity.
Defined.

(** X4: on a Service Set with distinct names, [_fix_keycloak_init]
    never raises; it deletes exactly the entries whose name contains the
    "-keycloak"-stripped service name and "init-prepare-write-dirs",
    leaves the others in their order, and logs one line for each deleted
    name, in the order of the names. *)
Theorem fix_keycloak_init_removes_exactly_companions
    (svc_name : string) (cs : list (string * service)) (log : list string) :
  NoDup (Dict.keys cs) →
  _fix_keycloak_init svc_name (World cs log)
  = (Ok tt,
     World (List.filter (λ kv, negb (is_keycloak_init svc_name kv.1)) cs)
           (log ++ (removal_line
                      <$> List.filter (is_keycloak_init svc_name)
                            (Dict.keys cs)))).
Proof. apply fix_keycloak_init_effect. Qed.

Lemma fix_keycloak_init_removes_exactly_companions_witness :
  _fix_keycloak_init "auth-keycloak" (World Sample.with_web [])
  = (Ok tt,
     World [("web", Sample.svc "nginx:1.25"); ("auth-keycloak", Sample.keycloak)]
       ["  [bitnami] auth-init-prepare-write-dirs: removed (emptyDir copy fails in compose)"]).
Proof.
  rewrite (fix_keycloak_init_removes_exactly_companions "auth-keycloak"
             Sample.with_web []).
  - reflexivity.
  - apply (bool_decide_unpack _). by vm_compute.
Defined.

(** X5: on a Service Set with distinct names, the only way the
    transform raises is [KeyError] at a name of the Service Set that is
    not overridden, contains "init-prepare-write-dirs" and has been
    deleted from the Service Set by then. *)
Theorem transform_raises_only_on_deleted_companion `{dec : Base64Decoder}
    (cs : list (string * service)) (ctx : context) (e : exn) (w : world) :
  NoDup (Dict.keys cs) →
  run_transform cs ctx = (Raise e, w) →
  ∃ n, e = KeyError n
    ∧ n ∈ Dict.keys cs
    ∧ (n ∉ default ∅ (overrides (config ctx)))
    ∧ Py.contains "init-prepare-write-dirs" n = true
    ∧ Dict.get (compose_services w) n = None.
Proof.
  intros Hnodup Hrun.
  pose proof (run_transform_post ctx cs cs eq_refl Hnodup) as Hpost.
  rewrite Hrun in Hpost. apply Hpost.
Qed.

Lemma transform_raises_only_on_deleted_companion_witness :
  ∃ n, KeyError "auth-init-prepare-write-dirs" = KeyError n
    ∧ n ∈ Dict.keys Sample.keycloak_first
    ∧ (n ∉ default ∅ (overrides (config (Sample.ctx Sample.auth_secrets))))
    ∧ Py.contains "init-prepare-write-dirs" n = true
    ∧ Dict.get [("auth-keycloak", Sample.keycloak_repaired)] n = None.
Proof.
  apply (transform_raises_only_on_deleted_companion (dec := Sample.decoder)
           Sample.keycloak_first (Sample.ctx Sample.auth_secrets)
           (KeyError "auth-init-prepare-write-dirs")
           (World [("auth-keycloak", Sample.keycloak_repaired)]
                  Sample.auth_lines)).
  - apply (bool_decide_unpack _). by vm_compute.
  - by vm_compute.
Defined.

(** X6: whether the run completes or raises, the transform adds no name
    and reorders none (the names left are a sublist of the names it was
    given, still distinct), and every name that does not contain
    "init-prepare-write-dirs" is still in the Service Set. *)
Theorem transform_keeps_names_and_order `{dec : Base64Decoder}
    (cs : list (string * service)) (ctx : context) :
  NoDup (Dict.keys cs) →
  let final := compose_services (run_transform cs ctx).2 in
  Dict.keys final `sublist_of` Dict.keys cs
  ∧ NoDup (Dict.keys final)
  ∧ ∀ n, n ∈ Dict.keys cs →
         Py.contains "init-prepare-write-dirs" n = false →
         n ∈ Dict.keys final.
Proof.
  intros Hnodup final.
  pose proof (run_transform_post ctx cs cs eq_refl Hnodup) as Hpost.
  subst final. destruct (run_transform cs ctx) as [[[]|e] w].
  - destruct Hpost as (? & ? & ?). done.
  - destruct Hpost as [(? & ? & ?) _]. done.
Qed.

Lemma transform_keeps_names_and_order_witness :
  "web" ∈ Dict.keys
            (compose_services
               (run_transform (dec := Sample.decoder) Sample.with_web
                  (Sample.ctx Sample.auth_secrets)).2).
Proof.
  destruct (transform_keeps_names_and_order (dec := Sample.decoder)
              Sample.with_web (Sample.ctx Sample.auth_secrets))
    as (_ & _ & Hkeep).
  - apply (bool_decide_unpack _). by vm_compute.
  - apply Hkeep; [|reflexivity]. apply list_elem_of_here.
Defined.

(** X7: each repair routine is idempotent: applied to the record it has
    produced, it returns the same record and logs the same lines. *)
Theorem repairs_are_idempotent `{dec : Base64Decoder}
    (svc_name : string) (svc : service) (ctx : context) :
  _fix_redis svc_name (_fix_redis svc_name svc ctx).1 ctx
  = _fix_redis svc_name svc ctx
  ∧ _fix_postgresql svc_name (_fix_postgresql svc_name svc ctx).1 ctx
    = _fix_postgresql svc_name svc ctx
  ∧ _fix_keycloak svc_name (_fix_keycloak svc_name svc ctx).1 ctx
    = _fix_keycloak svc_name svc ctx.
Proof.
  split_and!.
  - apply fix_redis_twice.
  - done.
  - apply fix_keycloak_twice.
Qed.

(** X8: on a Service Set with distinct names and no companion name,
    running the transform a second time on the Service Set left by the
    first run completes and leaves that Service Set as it is. *)
Theorem transform_twice_same_services `{dec : Base64Decoder}
    (cs : list (string * service)) (ctx : context) :
  NoDup (Dict.keys cs) →
  no_companion_names cs →
  let once := compose_services (run_transform cs ctx).2 in
  (run_transform once ctx).1 = Ok tt
  ∧ compose_services (run_transform once ctx).2 = once.
Proof.
  intros Hnodup Hnames once. subst once.
  rewrite (run_transform_independent ctx cs) by done.
  cbn [snd compose_services].
  rewrite (run_transform_independent ctx (repaired ctx cs)).
  - cbn [fst snd compose_services]. by rewrite repaired_twice.
  - by rewrite keys_repaired.
  - unfold no_companion_names. by rewrite keys_repaired.
Qed.

Lemma transform_twice_same_services_witness :
  (run_transform (dec := Sample.decoder)
     (compose_services
        (run_transform (dec := Sample.decoder) Fixture.mixed
           (Sample.ctx Sample.cache_secrets)).2)
     (Sample.ctx Sample.cache_secrets)).1 = Ok tt
  ∧ compose_services
      (run_transform (dec := Sample.decoder)
         (compose_services
            (run_transform (dec := Sample.decoder) Fixture.mixed
               (Sample.ctx Sample.cache_secrets)).2)
         (Sample.ctx Sample.cache_secrets)).2
    = compose_services
        (run_transform (dec := Sample.decoder) Fixture.mixed
           (Sample.ctx Sample.cache_secrets)).2.
Proof.
  apply (transform_twice_same_services (dec := Sample.decoder) Fixture.mixed
           (Sample.ctx Sample.cache_secrets) nodup_mixed
           no_companion_names_mixed).
Defined.

(** X9: the cache repair keeps nothing of the record but the keys it
    does not name: image, entrypoint, environment and volumes are fixed
    by the service name and the configuration, the command is
    ["redis-server"] or that followed by "--requirepass" and a non-empty
    password, the result is of no family any more, and two records with
    the same other keys give the same result. *)
Theorem redis_repair_discards_record `{dec : Base64Decoder}
    (svc_name : string) (svc : service) (ctx : context) :
  let svc' := (_fix_redis svc_name svc ctx).1 in
  image svc' = Some "redis:7-alpine"
  ∧ entrypoint svc' = None
  ∧ environment svc' = None
  ∧ volumes svc'
    = Some [default "./data" (volume_root (config ctx)) +:+ "/"
              +:+ svc_name +:+ ":/data"]
  ∧ others svc' = others svc
  ∧ (command svc' = Some ["redis-server"]
     ∨ ∃ pw, pw ≠ "" ∧ command svc' = Some ["redis-server"; "--requirepass"; pw])
  ∧ unmatched svc' = true
  ∧ ∀ other, others other = others svc →
      _fix_redis svc_name other ctx = _fix_redis svc_name svc ctx.
Proof.
  intros svc'. subst svc'. split_and!; try apply fix_redis_unmatched.
  1-6: unfold _fix_redis;
    destruct (_fix_redis_password svc_name ctx) as [[|c pw]|];
    cbn; try done; try by left.
  - right. by exists (String c pw).
  - intros other Ho.
    by rewrite (fix_redis_reads_others svc_name other),
               (fix_redis_reads_others svc_name svc), Ho.
Qed.

Lemma redis_repair_discards_record_witness :
  _fix_redis (dec := Sample.decoder) "cache-redis-master"
    (Service (Some "bitnami/redis:7.2") (Some ["/entry.sh"]) (Some ["run"])
       (Some ["/old:/bitnami"]) (Some {[ "REDIS_PORT" := "6379" ]}) ∅)
    (Sample.ctx Sample.cache_secrets)
  = _fix_redis (dec := Sample.decoder) "cache-redis-master"
      (Sample.svc "bitnami/redis:7.2") (Sample.ctx Sample.cache_secrets).
Proof.
  by apply (redis_repair_discards_record (dec := Sample.decoder)
              "cache-redis-master" (Sample.svc "bitnami/redis:7.2")
              (Sample.ctx Sample.cache_secrets)).
Defined.

(** X10: the cache repair appends "--requirepass" and the password, and
    logs the Secret it came from, when the resolved Secret has a
    non-empty "redis-password"; when no candidate is in the store, or the
    resolved Secret has no such key, the command is ["redis-server"] and
    the no-password warning is logged. *)
Theorem redis_password_decides_command `{dec : Base64Decoder}
    (svc_name : string) (svc : service) (ctx : context) :
  (∀ name sec pw,
     _find_secret (secrets ctx) (_fix_redis_candidates svc_name)
     = Some (name, sec) →
     _secret_value sec "redis-password" = Some pw → pw ≠ "" →
     command (_fix_redis svc_name svc ctx).1
     = Some ["redis-server"; "--requirepass"; pw]
     ∧ _log (svc_name +:+ ": password set from Secret '" +:+ name +:+ "'")
       ∈ (_fix_redis svc_name svc ctx).2)
  ∧ (_find_secret (secrets ctx) (_fix_redis_candidates svc_name) = None
     ∨ (∃ name sec,
          _find_secret (secrets ctx) (_fix_redis_candidates svc_name)
          = Some (name, sec)
          ∧ _secret_value sec "redis-password" = None) →
     command (_fix_redis svc_name svc ctx).1 = Some ["redis-server"]
     ∧ _log (svc_name +:+ ": ⚠ no redis-password found, running without auth")
       ∈ (_fix_redis svc_name svc ctx).2).
Proof.
  split.
  - intros name sec pw Hfind Hv Hpw. unfold _fix_redis, _fix_redis_password.
    rewrite Hfind, (secret_value_truthy _ _ _ Hv), Hv.
    destruct pw as [|c pw]; [done|]. cbn. split; [done|].
    do 2 apply list_elem_of_further. apply list_elem_of_here.
  - intros Hnone.
    assert (_fix_redis_password svc_name ctx = None) as Hpw.
    { unfold _fix_redis_password.
      destruct Hnone as [-> | (name & sec & -> & Hv)]; [done|].
      rewrite Hv. by destruct (secret_truthy sec). }
    unfold _fix_redis. rewrite Hpw. cbn. split; [done|].
    do 2 apply list_elem_of_further. apply list_elem_of_here.
Qed.

Lemma redis_password_decides_command_witness :
  (command (_fix_redis (dec := Sample.decoder) "cache-redis-master"
              (Sample.svc "bitnami/redis:7.2")
              (Sample.ctx Sample.cache_secrets)).1
   = Some ["redis-server"; "--requirepass"; "s3cret"])
  ∧ command (_fix_redis (dec := Sample.decoder) "cache-redis-master"
               (Sample.svc "bitnami/redis:7.2") (Sample.ctx ∅)).1
    = Some ["redis-server"].
Proof.
  split.
  - destruct (redis_password_decides_command (dec := Sample.decoder)
                "cache-redis-master" (Sample.svc "bitnami/redis:7.2")
                (Sample.ctx Sample.cache_secrets)) as [Hset _].
    destruct (Hset "cache-redis"
                (Sample.plain {[ "redis-password" := "s3cret" ]}) "s3cret")
      as [Hcmd _]; [reflexivity | reflexivity | discriminate |].
    exact Hcmd.
  - destruct (redis_password_decides_command (dec := Sample.decoder)
                "cache-redis-master" (Sample.svc "bitnami/redis:7.2")
                (Sample.ctx ∅)) as [_ Hnone].
    destruct Hnone as [Hcmd _]; [left; reflexivity|].
    exact Hcmd.
Defined.

(** X11: the identity repair changes nothing of the record but
    [environment], and there only KC_BOOTSTRAP_ADMIN_PASSWORD and
    KC_DB_PASSWORD: every other variable is what it was. *)
Theorem keycloak_repair_writes_only_two_variables `{dec : Base64Decoder}
    (svc_name : string) (svc : service) (ctx : context) :
  let svc' := (_fix_keycloak svc_name svc ctx).1 in
  image svc' = image svc
  ∧ entrypoint svc' = entrypoint svc
  ∧ command svc' = command svc
  ∧ volumes svc' = volumes svc
  ∧ others svc' = others svc
  ∧ ∀ k, k ≠ "KC_BOOTSTRAP_ADMIN_PASSWORD" → k ≠ "KC_DB_PASSWORD" →
         env_lookup svc' k = env_lookup svc k.
Proof.
  intros svc'. subst svc'. unfold _fix_keycloak.
  pose proof (inject_frame svc_name ctx (_fix_keycloak_sec_candidates svc_name)
                "admin-password" "KC_BOOTSTRAP_ADMIN_PASSWORD" svc) as Hf1.
  pose proof (inject_other svc_name ctx (_fix_keycloak_sec_candidates svc_name)
                "admin-password" "KC_BOOTSTRAP_ADMIN_PASSWORD" svc) as Ho1.
  destruct (_fix_keycloak_inject _ _ _ "admin-password" _ svc) as [svc1 l1].
  pose proof (inject_frame svc_name ctx (_fix_keycloak_db_candidates svc_name)
                "password" "KC_DB_PASSWORD" svc1) as Hf2.
  pose proof (inject_other svc_name ctx (_fix_keycloak_db_candidates svc_name)
                "password" "KC_DB_PASSWORD" svc1) as Ho2.
  destruct (_fix_keycloak_inject _ _ _ "password" _ svc1) as [svc2 l2].
  cbn [fst] in *.
  destruct Hf1 as (? & ? & ? & ? & ?).
  destruct Hf2 as (? & ? & ? & ? & ?).
  split_and!; [congruence..|].
  intros k Hk1 Hk2. rewrite Ho2, Ho1; done.
Qed.

Lemma keycloak_repair_writes_only_two_variables_witness :
  env_lookup
    (_fix_keycloak (dec := Sample.decoder) "auth-keycloak"
       (Service (Some "bitnami/keycloak:23") None None None
          (Some {[ "KC_HOSTNAME" := "sso.example.org" ]}) ∅)
       (Sample.ctx Sample.auth_secrets)).1 "KC_HOSTNAME"
  = Some "sso.example.org".
Proof.
  destruct (keycloak_repair_writes_only_two_variables (dec := Sample.decoder)
              "auth-keycloak"
              (Service (Some "bitnami/keycloak:23") None None None
                 (Some {[ "KC_HOSTNAME" := "sso.example.org" ]}) ∅)
              (Sample.ctx Sample.auth_secrets)) as (_ & _ & _ & _ & _ & Henv).
  rewrite Henv; [reflexivity | discriminate | discriminate].
Defined.

(** X12: the identity repair sets KC_BOOTSTRAP_ADMIN_PASSWORD (resp.
    KC_DB_PASSWORD) to the non-empty "admin-password" (resp. "password")
    of the Secret its candidates resolve to, and logs that Secret's name;
    the second injection does not undo the first. When neither list of
    candidates resolves, the record is returned as it is (no environment
    mapping is created) and nothing is logged. *)
Theorem keycloak_credentials_injected `{dec : Base64Decoder}
    (svc_name : string) (svc : service) (ctx : context) :
  (∀ name sec pw,
     _find_secret (secrets ctx) (_fix_keycloak_sec_candidates svc_name)
     = Some (name, sec) →
     _secret_value sec "admin-password" = Some pw → pw ≠ "" →
     env_lookup (_fix_keycloak svc_name svc ctx).1 "KC_BOOTSTRAP_ADMIN_PASSWORD"
     = Some pw
     ∧ _log (svc_name +:+ ": KC_BOOTSTRAP_ADMIN_PASSWORD set from Secret '"
               +:+ name +:+ "'")
       ∈ (_fix_keycloak svc_name svc ctx).2)
  ∧ (∀ name sec pw,
       _find_secret (secrets ctx) (_fix_keycloak_db_candidates svc_name)
       = Some (name, sec) →
       _secret_value sec "password" = Some pw → pw ≠ "" →
       env_lookup (_fix_keycloak svc_name svc ctx).1 "KC_DB_PASSWORD" = Some pw
       ∧ _log (svc_name +:+ ": KC_DB_PASSWORD set from Secret '"
                 +:+ name +:+ "'")
         ∈ (_fix_keycloak svc_name svc ctx).2)
  ∧ (_find_secret (secrets ctx) (_fix_keycloak_sec_candidates svc_name) = None →
     _find_secret (secrets ctx) (_fix_keycloak_db_candidates svc_name) = None →
     _fix_keycloak svc_name svc ctx = (svc, [])).
Proof.
  split_and!.
  - intros name sec pw Hfind Hv Hpw. unfold _fix_keycloak.
    rewrite (inject_found _ _ _ _ _ svc _ _ _ Hfind Hv Hpw).
    pose proof (inject_other svc_name ctx (_fix_keycloak_db_candidates svc_name)
                  "password" "KC_DB_PASSWORD"
                  (setdefault_environment "KC_BOOTSTRAP_ADMIN_PASSWORD" pw svc)
                  "KC_BOOTSTRAP_ADMIN_PASSWORD") as Ho.
    destruct (_fix_keycloak_inject _ _ _ "password" _ _) as [svc2 l2].
    cbn [fst snd] in *. rewrite Ho by done.
    split; [apply env_lookup_setdefault | apply list_elem_of_here].
  - intros name sec pw Hfind Hv Hpw. unfold _fix_keycloak.
    destruct (_fix_keycloak_inject _ _ _ "admin-password" _ svc) as [svc1 l1].
    rewrite (inject_found _ _ _ _ _ svc1 _ _ _ Hfind Hv Hpw). cbn [fst snd].
    split; [apply env_lookup_setdefault|].
    apply elem_of_app. right. apply list_elem_of_here.
  - intros H1 H2. unfold _fix_keycloak.
    by rewrite !inject_unresolved.
Qed.

Lemma keycloak_credentials_injected_witness :
  env_lookup (_fix_keycloak (dec := Sample.decoder) "auth-keycloak"
                Sample.keycloak (Sample.ctx Sample.auth_secrets)).1
    "KC_BOOTSTRAP_ADMIN_PASSWORD" = Some "adminpw"
  ∧ env_lookup (_fix_keycloak (dec := Sample.decoder) "auth-keycloak"
                  Sample.keycloak (Sample.ctx Sample.auth_secrets)).1
      "KC_DB_PASSWORD" = Some "dbpw"
  ∧ _fix_keycloak (dec := Sample.decoder) "auth-keycloak" Sample.keycloak
      (Sample.ctx ∅) = (Sample.keycloak, []).
Proof.
  split_and!.
  - destruct (keycloak_credentials_injected (dec := Sample.decoder)
                "auth-keycloak" Sample.keycloak
                (Sample.ctx Sample.auth_secrets)) as (Hadmin & _).
    destruct (Hadmin "auth-keycloak"
                (Sample.plain {[ "admin-password" := "adminpw" ]}) "adminpw")
      as [Henv _]; [reflexivity | reflexivity | discriminate |].
    exact Henv.
  - destruct (keycloak_credentials_injected (dec := Sample.decoder)
                "auth-keycloak" Sample.keycloak
                (Sample.ctx Sample.auth_secrets)) as (_ & Hdb & _).
    destruct (Hdb "keycloak-postgresql"
                (Sample.plain {[ "password" := "dbpw" ]}) "dbpw")
      as [Henv _]; [reflexivity | reflexivity | discriminate |].
    exact Henv.
  - destruct (keycloak_credentials_injected (dec := Sample.decoder)
                "auth-keycloak" Sample.keycloak (Sample.ctx ∅))
      as (_ & _ & Hnone).
    apply Hnone; reflexivity.
Defined.

(** X13: for a service named [p]-keycloak, where [p] is non-empty,
    does not contain "keycloak" and has no leading or trailing hyphen,
    the prefix is [p]; the admin Secret is looked up as [p]-keycloak,
    then "keycloak"; the database Secret as [p]-postgresql, then
    "keycloak-postgresql"; and the companions are the names that contain
    [p] and "init-prepare-write-dirs". *)
Theorem keycloak_prefix_of_conventional_name (p : string) :
  Py.contains "keycloak" p = false →
  Py.strip p "-" = p →
  p ≠ "" →
  _fix_keycloak_prefix (p +:+ "-keycloak") = p
  ∧ _fix_keycloak_sec_candidates (p +:+ "-keycloak")
    = [p +:+ "-keycloak"; p +:+ "-keycloak"; "keycloak"]
  ∧ _fix_keycloak_db_candidates (p +:+ "-keycloak")
    = [p +:+ "-postgresql"; "keycloak-postgresql"]
  ∧ ∀ name, is_keycloak_init (p +:+ "-keycloak") name
            = Py.contains p name && Py.contains "init-prepare-write-dirs" name.
Proof.
  intros Hc Hs Hp.
  pose proof (keycloak_prefix_conventional p Hc Hs) as Hprefix.
  unfold _fix_keycloak_sec_candidates, _fix_keycloak_db_candidates,
    is_keycloak_init.
  rewrite Hprefix, keycloak_fragment by done.
  by destruct p.
Qed.

Lemma keycloak_prefix_of_conventional_name_witness :
  _fix_keycloak_prefix "sso-prod-keycloak" = "sso-prod"
  ∧ _fix_keycloak_sec_candidates "sso-prod-keycloak"
    = ["sso-prod-keycloak"; "sso-prod-keycloak"; "keycloak"]
  ∧ _fix_keycloak_db_candidates "sso-prod-keycloak"
    = ["sso-prod-postgresql"; "keycloak-postgresql"]
  ∧ ∀ name, is_keycloak_init "sso-prod-keycloak" name
            = Py.contains "sso-prod" name
              && Py.contains "init-prepare-write-dirs" name.
Proof.
  apply (keycloak_prefix_of_conventional_name "sso-prod");
    [reflexivity | reflexivity | discriminate].
Defined.

(** X14: every line the transform writes to the diagnostics stream,
    in a run that completes or raises, starts with "  [bitnami] ". *)
Theorem transform_lines_carry_prefix `{dec : Base64Decoder}
    (cs : list (string * service)) (ctx : context) :
  Forall is_log_line (stderr (run_transform cs ctx).2).
Proof.
  unfold run_transform, transform, snapshot.
  unfold mbind at 1, M_bind at 1.
  apply (for_each_keeps (λ w, Forall is_log_line (stderr w)));
    [|apply Forall_nil_2].
  intros svc_name _ w Hw. by apply transform_body_lines.
Qed.

(** X15: for a service named [p]-redis-master with [p] free of
    "-master", the cache repair looks up the Secrets [p]-redis, [p] and
    the service name, in this order; the same holds for [p]-master when
    [p] does not end in "-redis". *)
Theorem redis_candidates_of_conventional_name (p : string) :
  Py.contains "-master" p = false →
  _fix_redis_candidates (p +:+ "-redis-master")
  = [p +:+ "-redis"; p; p +:+ "-redis-master"]
  ∧ ((∀ p', p ≠ p' +:+ "-redis") →
     _fix_redis_candidates (p +:+ "-master")
     = [p +:+ "-redis"; p; p +:+ "-master"]).
Proof.
  intros Hc. unfold _fix_redis_candidates. split.
  - by rewrite redis_prefix_redis_master.
  - intros Hne. by rewrite redis_prefix_master.
Qed.

Lemma redis_candidates_of_conventional_name_witness :
  _fix_redis_candidates "shop-redis-master"
  = ["shop-redis"; "shop"; "shop-redis-master"]
  ∧ _fix_redis_candidates "shop-master" = ["shop-redis"; "shop"; "shop-master"].
Proof.
  destruct (redis_candidates_of_conventional_name "shop") as [H1 H2];
    [reflexivity|].
  split; [exact H1|]. apply H2.
  intros p' E. apply (f_equal String.length) in E.
  rewrite length_app_str in E. simpl in E. lia.
Defined.

(** ** Services of no family *)

Lemma for_each_indexed {A : Type} (I : list A → world → Prop)
    (J : world → Prop) (body : A → M unit) :
  (∀ x rest w, I (x :: rest) w →
     match body x w with
     | (Ok _, w') => I rest w'
     | (Raise _, w') => J w'
     end) →
  ∀ xs w, I xs w →
    match for_each xs body w with
    | (Ok _, w') => I [] w'
    | (Raise _, w') => J w'
    end.
Proof.
  intros Hbody xs. induction xs as [|x xs IH]; intros w Hw; [done|].
  rewrite for_each_cons. pose proof (Hbody x xs w Hw) as Hstep.
  destruct (body x w) as [[[]|e] w']; [|done]. by apply IH.
Qed.

Lemma get_filter {V : Type} (d : list (string * V)) (f : string → bool)
    (k : string) :
  Dict.get (List.filter (λ kv, f kv.1) d) k
  = if f k then Dict.get d k else None.
Proof.
  induction d as [|[k0 v0] d IH].
  - by destruct (f k).
  - cbn [List.filter fst]. destruct (f k0) eqn:Hk0; cbn [Dict.get];
      destruct (String.eqb_spec k0 k) as [Heq|Hne]; subst;
      rewrite ?Hk0; try done; try exact IH.
    by rewrite IH, Hk0.
Qed.

Section NoFamily.
Context `{dec : Base64Decoder}.
Variables (ctx : context) (cs0 : list (string * service)).
Variables (name : string) (svc : service).
Hypothesis no_family : unmatched svc = true.
#[local] Abbreviation ov := (default ∅ (overrides (config ctx))).

#[local] Abbreviation tracked := (entry_tracked cs0 ov name svc).
#[local] Abbreviation before := (entry_before cs0 ov name svc).

Lemma unmatched_tests :
  _is_bitnami_image svc "redis" = false
  ∧ _is_bitnami_image svc "postgresql" = false
  ∧ _is_bitnami_image svc "keycloak" = false.
Proof.
  pose proof no_family as Hun. unfold unmatched in Hun.
  apply andb_true_iff in Hun as [[H1 H2]%andb_true_iff H3].
  by apply negb_true_iff in H1, H2, H3.
Qed.

Lemma before_set x rest svc' log w :
  x ≠ name →
  (∀ kcsvc, Dict.get cs0 x = Some kcsvc → ¬ repaired_as_keycloak ov x kcsvc) →
  Dict.get (compose_services w) x ≠ None →
  before (x :: rest) w →
  before rest (World (Dict.set (compose_services w) x svc') log).
Proof.
  intros Hne Hnot Hpresent (Hrest & Hnodup & Horig & Htrack & Hdone).
  apply NoDup_cons in Hrest as [Hx Hrest].
  assert (x ∈ Dict.keys (compose_services w)) as Hkey.
  { apply dec_stable. by intros ?%get_none_not_key. }
  unfold entry_before, entry_tracked. cbn [compose_services].
  rewrite keys_set_present, (get_set_other _ x name) by done.
  split_and!; [done..| | done |].
  - intros n cur Hn. rewrite get_set_other by (by intros ->).
    apply Horig. by apply list_elem_of_further.
  - intros kc kcsvc Hkc Hrep Hinit Hkcrest. apply (Hdone kc kcsvc); [done..|].
    intros [->|?]%elem_of_cons; [|done]. by apply (Hnot kcsvc).
Qed.

Lemma before_skip x rest w :
  (∀ kcsvc, Dict.get cs0 x = Some kcsvc → ¬ repaired_as_keycloak ov x kcsvc) →
  before (x :: rest) w → before rest w.
Proof.
  intros Hnot (Hrest & Hnodup & Horig & Htrack & Hdone).
  apply NoDup_cons in Hrest as [Hx Hrest].
  split_and!; [done..| | done |].
  - intros n cur Hn. apply Horig. by apply list_elem_of_further.
  - intros kc kcsvc Hkc Hrep Hinit Hkcrest. apply (Hdone kc kcsvc); [done..|].
    intros [->|?]%elem_of_cons; [|done]. by apply (Hnot kcsvc).
Qed.

Lemma before_keycloak x rest cur svc' log w :
  x ≠ name →
  Dict.get (compose_services w) x = Some cur →
  repaired_as_keycloak ov x cur →
  before (x :: rest) w →
  before rest
    (World (List.filter (λ kv, negb (is_keycloak_init x kv.1))
              (Dict.set (compose_services w) x svc')) log).
Proof.
  intros Hne Hget Hrep (Hrest & Hnodup & Horig & Htrack & Hdone).
  apply NoDup_cons in Hrest as [Hx Hrest].
  pose proof (get_some_key _ _ _ Hget) as Hkey.
  pose proof (Horig x cur (list_elem_of_here _ _) Hget) as Hcur.
  unfold entry_before, entry_tracked. cbn [compose_services].
  rewrite (keys_filter _ (λ k, negb (is_keycloak_init x k))).
  rewrite keys_set_present by done.
  rewrite !(get_filter _ (λ k, negb (is_keycloak_init x k))).
  rewrite (get_set_other _ x name) by done.
  split_and!.
  - done.
  - by apply filter_nodup.
  - intros n cur' Hn.
    rewrite (get_filter _ (λ k, negb (is_keycloak_init x k))).
    destruct (negb (is_keycloak_init x n)); [|done].
    rewrite get_set_other by (by intros ->).
    apply Horig. by apply list_elem_of_further.
  - destruct (is_keycloak_init x name) eqn:Hinit; cbn [negb]; [|done].
    right. split; [done|]. by exists x, cur.
  - intros kc kcsvc Hkc Hrep' Hinit Hkcrest.
    destruct (decide (kc = x)) as [->|Hkcx].
    + by rewrite Hinit.
    + destruct (negb (is_keycloak_init x name)); [|done].
      apply (Hdone kc kcsvc); [done..|].
      by intros [->|?]%elem_of_cons.
Qed.

Lemma transform_body_before x rest w :
  before (x :: rest) w →
  match transform_body ctx ov x w with
  | (Ok _, w') => before rest w'
  | (Raise _, w') => tracked w'
  end.
Proof.
  intros Hw. pose proof Hw as (Hrest & Hnodup & Horig & Htrack & Hdone).
  unfold transform_body. case_bool_decide as Hov.
  { apply (before_skip x); [|done]. by intros kcsvc _ [? _]. }
  unfold mbind at 1, M_bind at 1, getitem.
  destruct (Dict.get (compose_services w) x) as [cur|] eqn:Hget; [|done].
  pose proof (Horig x cur (list_elem_of_here _ _) Hget) as Hcur.
  pose proof unmatched_tests as (Hs1 & Hs2 & Hs3).
  assert (unmatched cur = false → x ≠ name) as Hother.
  { intros Hfam ->. destruct Htrack as [Hsame|[Hgone _]]; [|congruence].
    rewrite Hget in Hsame. injection Hsame as ->. congruence. }
  destruct (_is_bitnami_image cur "redis") eqn:Hred.
  { destruct (_fix_redis x cur ctx) as [svc' lines]. rewrite mutate_emit.
    apply before_set; [|  |congruence|done].
    - apply Hother. unfold unmatched. by rewrite Hred.
    - intros kcsvc Hk (_ & Hr & _). congruence. }
  destruct (_is_bitnami_image cur "postgresql") eqn:Hpg.
  { destruct (_fix_postgresql x cur ctx) as [svc' lines]. rewrite mutate_emit.
    apply before_set; [|  |congruence|done].
    - apply Hother. unfold unmatched. by rewrite Hred, Hpg.
    - intros kcsvc Hk (_ & _ & Hp & _). congruence. }
  destruct (_is_bitnami_image cur "keycloak") eqn:Hkc.
  - destruct (_fix_keycloak x cur ctx) as [svc' lines].
    rewrite mutate_emit_init, fix_keycloak_init_effect.
    + apply before_keycloak with (cur := cur); [|done|done|done].
      apply Hother. unfold unmatched. by rewrite Hred, Hpg, Hkc.
    + rewrite keys_set_present; [done|]. by apply get_some_key in Hget.
  - apply (before_skip x); [|done].
    intros kcsvc Hk (_ & _ & _ & Hk3). congruence.
Qed.

Lemma run_transform_before :
  NoDup (Dict.keys cs0) →
  Dict.get cs0 name = Some svc →
  match run_transform cs0 ctx with
  | (Ok _, w') => before [] w'
  | (Raise _, w') => tracked w'
  end.
Proof.
  intros Hnodup Hget. unfold run_transform, transform, snapshot.
  unfold mbind at 1, M_bind at 1. cbn [compose_services].
  apply (for_each_indexed before tracked).
  - intros x rest w. apply transform_body_before.
  - split_and!; [done..| by left |].
    intros kc kcsvc Hkc _ _ Hno. by apply get_some_key in Hkc.
Qed.
End NoFamily.

(** C8, amended: the transform never changes the record of a service
    whose image is of none of the three families: whether the run
    completes or raises, such a service, if it is still in the Service
    Set, has the record it had. It is still in the Service Set unless it
    is a companion of a Keycloak-family service of the Service Set that
    the loop repairs (one that is not overridden, whose image is of the
    Keycloak family and of neither family tested before it, and whose
    "-keycloak"-stripped name and "init-prepare-write-dirs" both occur in
    the name of the service). A service of no family that is not
    overridden is removed only as such a companion, and a run that
    completes has removed it. *)
Theorem unmatched_service_kept_unless_keycloak_companion
    `{dec : Base64Decoder} (cs : list (string * service)) (ctx : context)
    (name : string) (svc : service) :
  NoDup (Dict.keys cs) →
  Dict.get cs name = Some svc →
  unmatched svc = true →
  let final := compose_services (run_transform cs ctx).2 in
  let ov := default ∅ (overrides (config ctx)) in
  (∀ svc', Dict.get final name = Some svc' → svc' = svc)
  ∧ (¬ keycloak_companion cs ov name → Dict.get final name = Some svc)
  ∧ (name ∉ ov → Dict.get final name = None → keycloak_companion cs ov name)
  ∧ (name ∉ ov → (run_transform cs ctx).1 = Ok tt →
     keycloak_companion cs ov name → Dict.get final name = None).
Proof.
  intros Hnodup Hget Hun final ov. subst final ov.
  pose proof (run_transform_before ctx cs name svc Hun Hnodup Hget) as Hrun.
  destruct (run_transform cs ctx) as [[[]|e] w]; cbn [fst snd].
  - destruct Hrun as (_ & _ & _ & Htrack & Hdone). split_and!.
    + intros svc' Hfinal. destruct Htrack as [?|[? _]]; congruence.
    + intros Hnone. by destruct Htrack as [?|[_ ?]].
    + intros _ Hfinal. destruct Htrack as [?|[_ ?]]; [congruence | done].
    + intros _ _ (kc & kcsvc & Hkc & Hrep & Hinit).
      apply (Hdone kc kcsvc); [done..|]. apply not_elem_of_nil.
  - split_and!.
    + intros svc' Hfinal. destruct Hrun as [?|[? _]]; congruence.
    + intros Hnone. by destruct Hrun as [?|[_ ?]].
    + intros _ Hfinal. destruct Hrun as [?|[_ ?]]; [congruence | done].
    + done.
Qed.

Lemma no_keycloak_in_plain_set :
  ¬ keycloak_companion Fixture.plain_set ∅ "auth-init-prepare-write-dirs".
Proof.
  intros (kc & kcsvc & Hget & (_ & _ & _ & Hkc) & _).
  cbn [Fixture.plain_set Dict.get] in Hget.
  destruct (String.eqb "web" kc); [by injection Hget as <-|].
  destruct (String.eqb "auth-init-prepare-write-dirs" kc);
    [by injection Hget as <-|done].
Qed.

Lemma unmatched_service_kept_unless_keycloak_companion_witness :
  Dict.get
    (compose_services
       (run_transform (dec := Sample.decoder) Fixture.plain_set
          (Sample.ctx Sample.auth_secrets)).2)
    "auth-init-prepare-write-dirs" = Some Sample.init
  ∧ Dict.get
      (compose_services
         (run_transform (dec := Sample.decoder) Sample.init_first
            (Sample.ctx Sample.auth_secrets)).2)
      "auth-init-prepare-write-dirs" = None.
Proof.
  split.
  - destruct (unmatched_service_kept_unless_keycloak_companion
                (dec := Sample.decoder) Fixture.plain_set
                (Sample.ctx Sample.auth_secrets)
                "auth-init-prepare-write-dirs" Sample.init)
      as (_ & Hkept & _); [|reflexivity|reflexivity|].
    + apply (bool_decide_unpack _). by vm_compute.
    + apply Hkept, no_keycloak_in_plain_set.
  - destruct (unmatched_service_kept_unless_keycloak_companion
                (dec := Sample.decoder) Sample.init_first
                (Sample.ctx Sample.auth_secrets)
                "auth-init-prepare-write-dirs" Sample.init)
      as (_ & _ & _ & Hgone); [|reflexivity|reflexivity|].
    + apply (bool_decide_unpack _). by vm_compute.
    + apply Hgone; [apply not_elem_of_empty | reflexivity |].
      exists "auth-keycloak", Sample.keycloak.
      split_and!; [reflexivity| |reflexivity].
      split_and!; [apply not_elem_of_empty | reflexivity..].
Defined.
